(** * The compile pipeline and the function mask of the esm loader

    A shallow embedding of [src/module/_compile.js] (dialect resolution,
    the compile cache, the wrapper synthesizer, the execution driver and
    the error pipeline) and of the function mask [maskFunction], with
    the properties of the specification stated over them.

    JavaScript objects that are shared and mutated (the loader's
    [Module.wrap] slot, [moduleState], the package caches, the entries)
    live in an explicit heap that every operation threads.  Collaborators
    whose sources are not part of the slice (the transformer, the host's
    [_compile], the stack-trace masker, path and file helpers) are the
    fields of one interface, [Host]; every statement is proved for all
    of its implementations. *)

From Stdlib Require Import Ascii String.
From stdpp Require Import base option gmap strings list fin_maps.

Set Default Proof Using "Type".

(* [simpl] may compute the concatenation of string literals. *)
#[local] Arguments String.append !s1 s2 : simpl nomatch.

(** ** Strings of the generated code *)

(** The line feed written ["\n"] in the source. *)
Definition nl : string := String "010"%char EmptyString.

(** The double quote of the strict-mode pragma. *)
Definition dq : string := String "034"%char EmptyString.

(** ** Data model *)

(** [constant/source-type.js]: the three dialects. *)
Inductive SourceType := SCRIPT | MODULE | UNAMBIGUOUS.

#[global] Instance SourceType_eq_dec : EqDecision SourceType.
Proof. solve_decision. Defined.

(** [constant/entry.js]: the states of an entry. *)
Inductive EntryState :=
  | INITIAL
  | PARSING_STARTED
  | PARSING_COMPLETED
  | EXECUTION_STARTED
  | EXECUTION_COMPLETED.

#[global] Instance EntryState_eq_dec : EqDecision EntryState.
Proof. solve_decision. Defined.

(** A value stored where the code expects text: [cached.code] is filled
    from [readFileFast], and is [undefined] when read off the sentinel
    [true].  String concatenation converts it with [text_string]. *)
Inductive JsText :=
  | TUndefined
  | TNull
  | TString (s : string).

Definition text_string (t : JsText) : string :=
  match t with
  | TUndefined => "undefined"
  | TNull => "null"
  | TString s => s
  end.

(** What a host call evaluates to. *)
Inductive Value :=
  | Undefined
  | HostValue (n : nat).

Record Warning := mkWarning {
  w_code : string;
  w_args : list string
}.

(** Cached Compilation: the record produced by the transformer. *)
Record Cached := mkCached {
  code : JsText;
  sourceType : SourceType;
  changed : bool;
  topLevelReturn : bool;
  exportSpecifiers : option (gmap string nat);
  warnings : list Warning
}.

(** A slot of [cache.compile]: the sentinel [true] (on disk, not yet
    loaded) or a record.  An absent key reads as [undefined], [None]. *)
Inductive Slot :=
  | Pending
  | Compiled (c : Cached).

Record CjsOptions := mkCjs {
  vars : bool
}.

(** [sourceMap] is [undefined], [false] or [true]. *)
Record Options := mkOptions {
  mode : string;
  debug : bool;
  await : bool;
  cjs : CjsOptions;
  sourceMap : option bool;
  opt_warnings : bool
}.

(** The immutable part of a package; its two caches are in the heap,
    keyed by the package identity [pid], because every entry of the
    package shares them. *)
Record Package := mkPackage {
  pid : nat;
  options : Options;
  cachePath : string
}.

Record ParentEntry := mkParent {
  parent_package : Package;
  parent_cacheName : string
}.

(** The immutable part of an entry.  [filename] is
    [entry.module.filename]; the fields the pipeline assigns ([state],
    [url], the runtime binding) are in the heap under [eid]. *)
Record Entry := mkEntry {
  eid : nat;
  package : Package;
  cacheName : string;
  filename : string;
  runtimeName : string;
  parent : option ParentEntry
}.

(** The functions [Module.wrap] can hold: the loader's default [wrap],
    the two overrides of this file, or a function of somebody else. *)
Inductive Wrapper :=
  | wrap
  | moduleWrapAsyncCJS
  | moduleWrapESM
  | foreignWrap (n : nat).

#[global] Instance Wrapper_eq_dec : EqDecision Wrapper.
Proof. solve_decision. Defined.

(** A thrown value.  [e.sourceType] is the annotation a transform error
    carries; whether the value is an error object and whether its trace
    is masked are decided by the host's [isError] and
    [isStackTraceMasked]. *)
Record Thrown := mkThrown {
  th_name : string;
  th_stack : string;
  th_sourceType : option SourceType
}.

(** The shared, mutable state. *)
Record Heap := mkHeap {
  Module_wrap : Wrapper;
  stat : option (gmap string nat);
  requireDepth : nat;
  parsing : bool;
  cache_compile : gmap (nat * string) Slot;
  cache_map : gmap (nat * string) nat;
  entry_state : gmap nat EntryState;
  entry_url : gmap nat string;
  entry_runtime : gmap nat nat;
  next_object : nat
}.

Definition set_Module_wrap (w : Wrapper) (h : Heap) : Heap :=
  mkHeap w (stat h) (requireDepth h) (parsing h) (cache_compile h)
    (cache_map h) (entry_state h) (entry_url h) (entry_runtime h)
    (next_object h).

Definition set_stat (s : option (gmap string nat)) (h : Heap) : Heap :=
  mkHeap (Module_wrap h) s (requireDepth h) (parsing h) (cache_compile h)
    (cache_map h) (entry_state h) (entry_url h) (entry_runtime h)
    (next_object h).

Definition set_cache_compile (c : gmap (nat * string) Slot) (h : Heap) : Heap :=
  mkHeap (Module_wrap h) (stat h) (requireDepth h) (parsing h) c
    (cache_map h) (entry_state h) (entry_url h) (entry_runtime h)
    (next_object h).

Definition set_cache_map (c : gmap (nat * string) nat) (h : Heap) : Heap :=
  mkHeap (Module_wrap h) (stat h) (requireDepth h) (parsing h)
    (cache_compile h) c (entry_state h) (entry_url h) (entry_runtime h)
    (next_object h).

Definition set_entry_state (e : Entry) (s : EntryState) (h : Heap) : Heap :=
  mkHeap (Module_wrap h) (stat h) (requireDepth h) (parsing h)
    (cache_compile h) (cache_map h) (<[eid e := s]> (entry_state h))
    (entry_url h) (entry_runtime h) (next_object h).

Definition set_entry_url (e : Entry) (u : string) (h : Heap) : Heap :=
  mkHeap (Module_wrap h) (stat h) (requireDepth h) (parsing h)
    (cache_compile h) (cache_map h) (entry_state h)
    (<[eid e := u]> (entry_url h)) (entry_runtime h) (next_object h).

(** The key of an entry in its package's caches. *)
Definition cache_key (e : Entry) : nat * string :=
  (pid (package e), cacheName e).

(** ** Outcomes and calls *)

Inductive Outcome (A : Type) :=
  | Return (a : A)
  | Throw (e : Thrown).
Arguments Return {A} a.
Arguments Throw {A} e.

(** The third argument of [maskStackTrace]: the content itself, or the
    thunk [() => readSourceCode(filename)]. *)
Inductive MaskContent :=
  | ContentText (s : string)
  | ContentThunk (file : string).

(** The calls the pipeline makes to its collaborators, in order. *)
Inductive Call :=
  | CallCompilerFrom (e : nat)
  | CallReadCachedCode (path : string)
  | CallCompilerCompile (e : nat) (content : string) (hint st : SourceType)
  | CallRuntimeEnable (e : nat)
  | CallModCompile (e : nat) (content file : string)
  | CallCaptureStackTrace (t : Thrown) (caller : nat)
  | CallMaskStackTrace (t : Thrown) (c : MaskContent) (file : string) (isESM : bool)
  | CallValidateESM (e : nat)
  | CallWarn (wcode file : string) (args : list string)
  | CallFallback.

(** A collaborator that runs foreign code: it may change the heap and
    may throw. *)
Definition Foreign (A : Type) : Type := Heap -> Outcome A * Heap.

(** The collaborators of [_compile.js].  Helpers that only compute are
    functions; [Compiler.from] reads the heap; the transformer, the
    validator and the host's [_compile] run foreign code.  The
    predicates on thrown values and the two functions that rework a
    stack trace are left open. *)
Class Host := mkHost {
  (* path *)
  extname : string -> string;
  resolve : string -> string -> string;
  (* shared.support.await, env/is-inspect.js, shared.package.default *)
  support_await : bool;
  isInspect : bool;
  default_package : nat;
  (* util *)
  getSourceMappingURL : JsText -> bool;
  createSourceMap : string -> JsText -> string;
  encodeURI : string -> string;
  getURLFromFilePath : string -> string;
  isError : Thrown -> bool;
  isStackTraceMasked : Thrown -> bool;
  (* fs/read-file-fast.js *)
  readFileFast : string -> string -> JsText;
  (* error *)
  captureStackTrace : Thrown -> nat -> Thrown;
  maskStackTrace : Thrown -> MaskContent -> string -> bool -> Thrown;
  (* caching-compiler.js *)
  Compiler_from : Entry -> Heap -> option Cached;
  Compiler_compile : Entry -> string -> SourceType * SourceType -> Foreign Cached;
  (* module/esm/validate.js *)
  validateESM : Entry -> Foreign unit;
  (* entry.module._compile *)
  mod_compile : Entry -> string -> string -> Foreign Value
}.

(** ** The pipeline monad: heap, exceptions and the log of calls *)

Definition M (A : Type) : Type := Heap -> Outcome A * Heap * list Call.

Definition ret {A} (a : A) : M A := fun h => (Return a, h, []).

Definition bind {A B} (m : M A) (k : A -> M B) : M B := fun h =>
  match m h with
  | (Return a, h1, l1) =>
      match k a h1 with
      | (o, h2, l2) => (o, h2, l1 ++ l2)
      end
  | (Throw e, h1, l1) => (Throw e, h1, l1)
  end.

Definition throw {A} (e : Thrown) : M A := fun h => (Throw e, h, []).

Definition gets {A} (f : Heap -> A) : M A := fun h => (Return (f h), h, []).

Definition modify (f : Heap -> Heap) : M unit := fun h => (Return tt, f h, []).

Definition tell (c : Call) : M unit := fun h => (Return tt, h, [c]).

(** Calling a collaborator: the call is logged, then it runs. *)
Definition call {A} (c : Call) (f : Foreign A) : M A := fun h =>
  match f h with
  | (o, h1) => (o, h1, [c])
  end.

(** [try { m } catch (e) { handler e }] *)
Definition try_catch {A} (m : M A) (handler : Thrown -> M A) : M A := fun h =>
  match m h with
  | (Return a, h1, l1) => (Return a, h1, l1)
  | (Throw e, h1, l1) =>
      match handler e h1 with
      | (o, h2, l2) => (o, h2, l1 ++ l2)
      end
  end.

(** [try { m } finally { fin }], for a [fin] that only assigns. *)
Definition try_finally {A} (m : M A) (fin : Heap -> Heap) : M A := fun h =>
  match m h with
  | (o, h1, l1) => (o, fin h1, l1)
  end.

Notation "'do' x <- m ; k" := (bind m (fun x => k))
  (at level 10, x name, m at level 100, k at level 200).

(** Reading a property of [undefined] throws a [TypeError]. *)
Definition typeError (prop : string) : Thrown :=
  mkThrown "TypeError" ("Cannot read property '" +:+ prop +:+ "' of undefined") None.

(** [for (const x of xs) body(x)] *)
Fixpoint for_each {A} (xs : list A) (body : A -> M unit) : M unit :=
  match xs with
  | [] => ret tt
  | x :: rest => do _ <- body x; for_each rest body
  end.

(** ** The functions of [_compile.js] *)

Section Pipeline.
Context `{X : Host}.

(** [compile], lines 43-58: the hint and the source type handed to the
    transformer. *)
Definition dialect (options : Options) (filename : string) : SourceType * SourceType :=
  let hint := SCRIPT in
  let sourceType := SCRIPT in
  let sourceType :=
    if decide (mode options = "all") then MODULE
    else if decide (mode options = "js") then UNAMBIGUOUS
    else sourceType in
  if decide (extname filename = ".mjs") then
    let hint := MODULE in
    (hint, if decide (sourceType = SCRIPT) then MODULE else sourceType)
  else (hint, sourceType).

(** [entry.package.cache.compile[entry.cacheName]] *)
Definition cached_of (entry : Entry) (h : Heap) : option Slot :=
  cache_compile h !! cache_key entry.

(** [cached && cached.sourceType === MODULE], as a condition. *)
Definition slot_isESM (cached : option Slot) : bool :=
  match cached with
  | Some (Compiled c) => bool_decide (sourceType c = MODULE)
  | _ => false
  end.

(** Properties read off a slot that is not [undefined]: the sentinel
    [true] has none of them. *)
Definition slot_code (s : Slot) : JsText :=
  match s with
  | Pending => TUndefined
  | Compiled c => code c
  end.

Definition slot_changed (s : Slot) : bool :=
  match s with
  | Pending => false
  | Compiled c => changed c
  end.

Definition slot_topLevelReturn (s : Slot) : bool :=
  match s with
  | Pending => false
  | Compiled c => topLevelReturn c
  end.

Definition slot_exportSpecifiers (s : option Slot) : option (gmap string nat) :=
  match s with
  | Some (Compiled c) => exportSpecifiers c
  | _ => None
  end.

(** [util/keys.js]: the own enumerable keys of an object. *)
Definition keys (o : gmap string nat) : list string :=
  (map_to_list o).*1.

(** [useAsyncWrapper] *)
Definition useAsyncWrapper (entry : Entry) (h : Heap) : bool :=
  let pkg := package entry in
  let fallthrough := false in
  if await (options pkg) && support_await then
    let cached := cache_compile h !! (pid pkg, cacheName entry) in
    let isESM := slot_isESM cached in
    if negb isESM then true
    else
      let exportSpecifiers := slot_exportSpecifiers cached in
      match exportSpecifiers with
      | None => true
      | Some o => if bool_decide (length (keys o) = 0) then true else fallthrough
      end
  else fallthrough.

(** [maybeSourceMap] *)
Definition maybeSourceMap (entry : Entry) (content : JsText) : string :=
  let sourceMap := sourceMap (options (package entry)) in
  if bool_decide (sourceMap <> Some false)
     && (bool_decide (sourceMap = Some true) || isInspect)
     && negb (getSourceMappingURL content)
  then "//# sourceMappingURL=data:application/json;charset=utf-8," +:+
       encodeURI (createSourceMap (filename entry) content)
  else "".

(** Modelled from the spec: [runtime.js] is not among the sources;
    [Runtime.enable(entry, new ExObject)] installs a fresh
    runtime-binding object on the entry. *)
Definition Runtime_enable (entry : Entry) : M unit :=
  do _ <- tell (CallRuntimeEnable (eid entry));
  modify (fun h =>
    mkHeap (Module_wrap h) (stat h) (requireDepth h) (parsing h)
      (cache_compile h) (cache_map h) (entry_state h) (entry_url h)
      (<[eid entry := next_object h]> (entry_runtime h))
      (S (next_object h))).

(** [mod._compile(content, filename)] *)
Definition run_compile (entry : Entry) (content filename : string) : M Value :=
  call (CallModCompile (eid entry) content filename)
       (mod_compile entry content filename).

(** The wrapper of the script dialect, lines 169-175. *)
Definition wrapCJS (entry : Entry) (topLevelReturn useAsync : bool) (content : JsText) : string :=
  (if topLevelReturn then "return " else "") +:+
  "this.r((" +:+
  (if useAsync then "async " else "") +:+
  "function(" +:+ runtimeName entry +:+ ",global,exports,require){" +:+
  text_string content +:+
  nl +:+ "}))".

(** [tryCompileCJS] *)
Definition tryCompileCJS (entry : Entry) : M Value :=
  do cached <- gets (cached_of entry);
  do useAsync <- gets (useAsyncWrapper entry);
  match cached with
  | None => throw (typeError "code")
  | Some cached =>
    let content := slot_code cached in
    do content <-
      (if slot_changed cached then
         let content :=
           TString (wrapCJS entry (slot_topLevelReturn cached) useAsync content) in
         do _ <- Runtime_enable entry;
         ret content
       else if useAsync then
         do _ <- modify (set_Module_wrap moduleWrapAsyncCJS);
         ret content
       else ret content);
    let content := text_string content +:+ maybeSourceMap entry content in
    try_finally
      (run_compile entry content (filename entry))
      (fun h =>
         if decide (Module_wrap h = moduleWrapAsyncCJS)
         then set_Module_wrap wrap h else h)
  end.

(** The wrapper of the import/export dialect, lines 199-207. *)
Definition wrapESM (entry : Entry) (topLevelReturn useAsync cjsVars : bool) (code : JsText) : string :=
  (if topLevelReturn then "return " else "") +:+
  "this.r((" +:+
  (if useAsync then "async " else "") +:+
  "function(" +:+ runtimeName entry +:+ ",global" +:+
  (if cjsVars then ",exports,require" else "") +:+
  "){" +:+ dq +:+ "use strict" +:+ dq +:+ ";" +:+
  text_string code +:+
  nl +:+ "}))".

(** [! entry.url]: no url yet, or the empty string. *)
Definition no_url (entry : Entry) (h : Heap) : bool :=
  match entry_url h !! eid entry with
  | None => true
  | Some u => bool_decide (u = "")
  end.

(** [tryCompileESM] *)
Definition tryCompileESM (entry : Entry) : M Value :=
  let pkg := package entry in
  do cached <- gets (fun h => cache_compile h !! (pid pkg, cacheName entry));
  let cjsVars := vars (cjs (options pkg)) in
  let filename := filename entry in
  match cached with
  | None => throw (typeError "topLevelReturn")
  | Some cached =>
    do useAsync <- gets (useAsyncWrapper entry);
    let content :=
      wrapESM entry (slot_topLevelReturn cached) useAsync cjsVars (slot_code cached) in
    let content := content +:+ maybeSourceMap entry (TString content) in
    do nourl <- gets (no_url entry);
    do _ <- (if nourl
             then modify (set_entry_url entry (getURLFromFilePath filename))
             else ret tt);
    do _ <- (if negb cjsVars
             then modify (set_Module_wrap moduleWrapESM)
             else ret tt);
    do _ <- Runtime_enable entry;
    try_finally
      (run_compile entry content filename)
      (fun h =>
         if decide (Module_wrap h = moduleWrapESM)
         then set_Module_wrap wrap h else h)
  end.

(** [moduleWrapAsyncCJS] and [moduleWrapESM], the two overrides: each
    puts the default back and returns the wrapped script. *)
Definition moduleWrapAsyncCJS_body (script : string) (h : Heap) : string * Heap :=
  ("(async function (exports, require, module, __filename, __dirname) { " +:+
     script +:+ nl +:+ "});",
   set_Module_wrap wrap h).

Definition moduleWrapESM_body (script : string) (h : Heap) : string * Heap :=
  ("(function () { " +:+ script +:+ nl +:+ "});",
   set_Module_wrap wrap h).

(** The guard and the masking shared by the three catch blocks:
    [if (! isError(e) || isStackTraceMasked(e)) throw e]. *)
Definition rethrown_unchanged (e : Thrown) : bool :=
  negb (isError e) || isStackTraceMasked e.

(** [throw maskStackTrace(e, content, filename, isESM)] *)
Definition throw_masked {A} (e : Thrown) (content : MaskContent) (filename : string) (isESM : bool) : M A :=
  do _ <- tell (CallMaskStackTrace e content filename isESM);
  throw (maskStackTrace e content filename isESM).

(** [captureStackTrace(e, caller)], which works on [e] in place. *)
Definition capture (e : Thrown) (caller : nat) : M Thrown :=
  do _ <- tell (CallCaptureStackTrace e caller);
  ret (captureStackTrace e caller).

(** [Reflect.deleteProperty(e, "sourceType")] *)
Definition delete_sourceType (e : Thrown) : Thrown :=
  mkThrown (th_name e) (th_stack e) None.

(** [tryCompileCached] *)
Definition tryCompileCached (entry : Entry) : M Value :=
  let pkg := package entry in
  do cached <- gets (fun h => cache_compile h !! (pid pkg, cacheName entry));
  let isESM := slot_isESM cached in
  do depth <- gets requireDepth;
  let noDepth := bool_decide (depth = 0) in
  let tryCompile := if isESM then tryCompileESM else tryCompileCJS in
  do _ <- (if noDepth then modify (set_stat (Some ∅)) else ret tt);
  if debug (options pkg) then
    do result <- tryCompile entry;
    do _ <- (if noDepth then modify (set_stat None) else ret tt);
    ret result
  else
    try_finally
      (try_catch (tryCompile entry) (fun e =>
         if rethrown_unchanged e then throw e
         else
           let filename := filename entry in
           let content := ContentThunk filename in
           throw_masked e content filename isESM))
      (fun h => if noDepth then set_stat None h else h).

(** [isESM ? tryCompileESM : tryCompileCJS], the builder
    [tryCompileCached] picks for an entry. *)
Definition tryCompile_of (entry : Entry) (h : Heap) : Entry -> M Value :=
  if slot_isESM (cached_of entry h) then tryCompileESM else tryCompileCJS.

(** [Compiler.compile(entry, content, options)] *)
Definition run_transform (entry : Entry) (content : string) (opts : SourceType * SourceType) : M Cached :=
  call (CallCompilerCompile (eid entry) content opts.1 opts.2)
       (Compiler_compile entry content opts).

(** [tryCompileCode] *)
Definition tryCompileCode (caller : nat) (entry : Entry) (content : string) (opts : SourceType * SourceType) : M Cached :=
  if debug (options (package entry)) then
    run_transform entry content opts
  else
    try_catch (run_transform entry content opts) (fun e =>
      if rethrown_unchanged e then throw e
      else
        let isESM := bool_decide (th_sourceType e = Some MODULE) in
        let e := delete_sourceType e in
        do e <- capture e caller;
        throw_masked e (ContentText content) (filename entry) isESM).

(** [tryValidateESM] *)
Definition tryValidateESM (caller : nat) (entry : Entry) : M unit :=
  let options := options (package entry) in
  if debug options then
    call (CallValidateESM (eid entry)) (validateESM entry)
  else
    try_catch (call (CallValidateESM (eid entry)) (validateESM entry)) (fun e =>
      if rethrown_unchanged e then throw e
      else
        let filename := filename entry in
        let content := ContentThunk filename in
        do e <- capture e caller;
        throw_masked e content filename true).

(** [cached.code = ...] on the record loaded from disk. *)
Definition set_code (t : JsText) (c : Cached) : Cached :=
  mkCached t (sourceType c) (changed c) (topLevelReturn c)
    (exportSpecifiers c) (warnings c).

(** [readCachedCode] *)
Definition readCachedCode (filename : string) : M JsText :=
  do _ <- tell (CallReadCachedCode filename);
  ret (readFileFast filename "utf8").

(** [compile], lines 60-84: the record of the entry, taken from the
    memory cache, loaded from disk, or freshly transformed and stored. *)
Definition compile_cached (caller : nat) (entry : Entry) (content filename : string) : M Cached :=
  let options := options (package entry) in
  let pkg := package entry in
  let key := (pid pkg, cacheName entry) in
  do cached <- gets (fun h => cache_compile h !! key);
  do cached <-
    match cached with
    | Some Pending =>
        do _ <- tell (CallCompilerFrom (eid entry));
        do cached <- gets (Compiler_from entry);
        match cached with
        | Some cached =>
            do text <- readCachedCode (resolve (cachePath pkg) (cacheName entry));
            let cached := set_code text cached in
            do _ <- modify (fun h =>
              set_cache_compile (<[key := Compiled cached]> (cache_compile h)) h);
            ret (Some cached)
        | None =>
            do _ <- modify (fun h =>
              set_cache_compile (delete key (cache_compile h)) h);
            do _ <- modify (fun h =>
              set_cache_map (delete key (cache_map h)) h);
            ret None
        end
    | Some (Compiled cached) => ret (Some cached)
    | None => ret None
    end;
  match cached with
  | Some cached => ret cached
  | None =>
      do cached <- tryCompileCode caller entry content (dialect options filename);
      do _ <- modify (fun h =>
        set_cache_compile (<[key := Compiled cached]> (cache_compile h)) h);
      ret cached
  end.

(** [entry.state], [INITIAL] until assigned. *)
Definition state_of (entry : Entry) (h : Heap) : EntryState :=
  default INITIAL (entry_state h !! eid entry).

(** [compile], lines 86-116: the warnings, then the parse-phase branch
    or the execution of the cached compilation. *)
Definition compile_run (caller : nat) (entry : Entry) (filename : string) (fallback : option (Foreign Value)) (cached : Cached) : M Value :=
  let options := options (package entry) in
  let pkg := package entry in
  do isParsing <- gets parsing;
  do _ <- (if opt_warnings options && isParsing
           then for_each (warnings cached) (fun warning =>
                  tell (CallWarn (w_code warning) filename (w_args warning)))
           else ret tt);
  do isParsing <- gets parsing;
  if isParsing then
    do cached <- gets (cached_of entry);
    let defaultPkg := default_package in
    let isESM := slot_isESM cached in
    let parentPkg := parent_package <$> parent entry in
    do parentCached <- gets (fun h =>
      match parent entry with
      | Some p => cache_compile h !! (pid (parent_package p), parent_cacheName p)
      | None => None
      end);
    let parentIsESM := slot_isESM parentCached in
    if negb isESM && negb parentIsESM &&
       (bool_decide (pid pkg = defaultPkg) ||
        bool_decide (pid <$> parentPkg = Some defaultPkg))
    then
      match fallback with
      | Some f => call CallFallback f
      | None => ret Undefined
      end
    else
      do state <- gets (state_of entry);
      do _ <- (if isESM && bool_decide (state = PARSING_STARTED)
               then tryValidateESM caller entry
               else ret tt);
      ret Undefined
  else
    do _ <- modify (set_entry_state entry EXECUTION_STARTED);
    tryCompileCached entry.

(** [compile] *)
Definition compile (caller : nat) (entry : Entry) (content filename : string) (fallback : option (Foreign Value)) : M Value :=
  do cached <- compile_cached caller entry content filename;
  compile_run caller entry filename fallback cached.

End Pipeline.

(** The two conditions of the parse-phase branch of [compile]. *)
Section ParsePhase.
Context `{X : Host}.

(** [parentPkg && parentPkg.cache.compile[parent.cacheName]] *)
Definition parent_cached (entry : Entry) (h : Heap) : option Slot :=
  match parent entry with
  | Some p => cache_compile h !! (pid (parent_package p), parent_cacheName p)
  | None => None
  end.

(** Lines 102-105: neither the entry nor its parent is of the
    import/export dialect, and the package of one of them is the default
    package. *)
Definition falls_back (entry : Entry) (h : Heap) : bool :=
  negb (slot_isESM (cached_of entry h)) &&
  negb (slot_isESM (parent_cached entry h)) &&
  (bool_decide (pid (package entry) = default_package) ||
   bool_decide (pid <$> (parent_package <$> parent entry) = Some default_package)).

(** Lines 109-110: an import/export entry at the start of parsing. *)
Definition validates (entry : Entry) (h : Heap) : bool :=
  slot_isESM (cached_of entry h) &&
  bool_decide (state_of entry h = PARSING_STARTED).

(** The [warn] calls of a cached compilation, lines 88-90. *)
Definition warnings_of (filename : string) (cached : Cached) : list Call :=
  (fun w => CallWarn (w_code w) filename (w_args w)) <$> warnings cached.

End ParsePhase.

(** Reading the three parts of a run. *)
Definition outcome_of {A} (r : Outcome A * Heap * list Call) : Outcome A := r.1.1.
Definition heap_of {A} (r : Outcome A * Heap * list Call) : Heap := r.1.2.
Definition log_of {A} (r : Outcome A * Heap * list Call) : list Call := r.2.

(** The contents handed to [mod._compile] in a log. *)
Definition handed (l : list Call) : list string :=
  omap (fun c => match c with CallModCompile _ content _ => Some content | _ => None end) l.

Definition is_mask (c : Call) : bool :=
  match c with CallMaskStackTrace _ _ _ _ => true | _ => false end.

Definition is_transform (c : Call) : bool :=
  match c with CallCompilerCompile _ _ _ _ => true | _ => false end.

(** How many times a log applies [maskStackTrace]. *)
Definition mask_calls (l : list Call) : nat := length (filter (fun c => is_mask c = true) l).

(** Kinds of calls in a log. *)
Definition is_warn (c : Call) : bool :=
  match c with CallWarn _ _ _ => true | _ => false end.

(** The calls that execute a module: [Runtime.enable] and [mod._compile]. *)
Definition is_exec (c : Call) : bool :=
  match c with
  | CallRuntimeEnable _ => true
  | CallModCompile _ _ _ => true
  | _ => false
  end.

Definition is_capture (c : Call) : bool :=
  match c with CallCaptureStackTrace _ _ => true | _ => false end.

Definition is_validate (c : Call) : bool :=
  match c with CallValidateESM _ => true | _ => false end.

(** The warnings a log reports, in order. *)
Definition warn_calls (l : list Call) : list Call :=
  filter (fun c => is_warn c = true) l.

(** ** Reading generated code *)

(** [strip_prefix p s] is what follows [p] in [s], when [s] starts with [p]. *)
Fixpoint strip_prefix (p s : string) : option string :=
  match p with
  | EmptyString => Some s
  | String a p' =>
      match s with
      | EmptyString => None
      | String b s' => if Ascii.eqb a b then strip_prefix p' s' else None
      end
  end.

Definition starts_with (p s : string) : bool :=
  match strip_prefix p s with Some _ => true | None => false end.


(** The fields of a comma-separated list. *)
Fixpoint split_commas (s : string) : list string :=
  match s with
  | EmptyString => [EmptyString]
  | String c rest =>
      if Ascii.eqb c ","%char then EmptyString :: split_commas rest
      else match split_commas rest with
           | x :: xs => String c x :: xs
           | [] => [String c EmptyString]
           end
  end.

Fixpoint string_forall (P : ascii -> bool) (s : string) : bool :=
  match s with
  | EmptyString => true
  | String c rest => P c && string_forall P rest
  end.







(** ** The function mask, [maskFunction] *)

(** Values: primitives, and references to objects of the realm. *)
Inductive JsVal :=
  | VUndefined
  | VNull
  | VPrimitive (n : nat)
  | VRef (r : nat).

#[global] Instance JsVal_eq_dec : EqDecision JsVal.
Proof. solve_decision. Defined.

(** An object is ordinary, or one of the two proxies [maskFunction]
    builds: the mask itself, with its [get] trap, and the proxy of
    [func.toString], with its [apply] trap. *)
Inductive Kind :=
  | Ordinary
  | MaskProxy (target toString : nat)
  | ToStringProxy (target : nat).

(** The descriptor of a data property.  The objects of the model have
    data properties only. *)
Record Desc := mkDesc {
  d_value : JsVal;
  d_writable : bool;
  d_enumerable : bool;
  d_configurable : bool
}.

#[global] Instance Desc_eq_dec : EqDecision Desc.
Proof. solve_decision. Defined.

(** An object: whether it can be called, its kind, and for an ordinary
    object whether it is extensible, its own properties and its
    prototype, an object or [null]. *)
Record Obj := mkObj {
  callable : bool;
  kind : Kind;
  extensible : bool;
  own : gmap string Desc;
  proto : option nat
}.

(** Identity-Mask Cache Record, [{ proxy, source, toString }]. *)
Record MaskRecord := mkMaskRecord {
  rec_proxy : nat;
  rec_source : nat;
  rec_toString : nat
}.

(** The objects, and the memo table [shared.memoize.utilMaskFunction],
    keyed by object identity. *)
Record Realm := mkRealm {
  objects : gmap nat Obj;
  utilMaskFunction : gmap nat MaskRecord
}.

Definition blank : Obj := mkObj false Ordinary false ∅ None.

Definition obj (R : Realm) (r : nat) : Obj := default blank (objects R !! r).

(** [typeof v === "function"], with the reference when it holds. *)
Definition callable_ref (R : Realm) (v : JsVal) : option nat :=
  match v with
  | VRef r => if callable (obj R r) then Some r else None
  | _ => None
  end.

Definition is_function (R : Realm) (v : JsVal) : bool :=
  match callable_ref R v with Some _ => true | None => false end.

(** A proxy without the trap forwards the operation to its target. *)
Fixpoint base_fuel (fuel : nat) (R : Realm) (r : nat) : nat :=
  match fuel with
  | 0 => r
  | S n =>
      match kind (obj R r) with
      | Ordinary => r
      | MaskProxy t _ => base_fuel n R t
      | ToStringProxy t => base_fuel n R t
      end
  end.

Definition base (R : Realm) (r : nat) : nat := base_fuel (size (objects R)) R r.

(** [Reflect.getOwnPropertyDescriptor(o, name)] *)
Definition getOwn (R : Realm) (r : nat) (name : string) : option Desc :=
  own (obj R (base R r)) !! name.

(** [util/has.js]: an own property of that name. *)
Definition has (R : Realm) (r : nat) (name : string) : bool :=
  match getOwn R r name with Some _ => true | None => false end.

(** [Reflect.getPrototypeOf(o)] *)
Definition getPrototypeOf (R : Realm) (r : nat) : option nat :=
  proto (obj R (base R r)).

Definition update (r : nat) (f : Obj -> Obj) (R : Realm) : Realm :=
  mkRealm (<[r := f (obj R r)]> (objects R)) (utilMaskFunction R).

Definition with_proto (p : option nat) (o : Obj) : Obj :=
  mkObj (callable o) (kind o) (extensible o) (own o) p.

Definition with_own (name : string) (d : Desc) (o : Obj) : Obj :=
  mkObj (callable o) (kind o) (extensible o) (<[name := d]> (own o)) (proto o).

(** The walk [Reflect.setPrototypeOf] makes before it changes a
    prototype: from the new prototype up, it stops at [null] and at a
    proxy, and finds the object itself when the change would close a
    cycle. *)
Fixpoint on_chain (fuel : nat) (R : Realm) (o : nat) (p : option nat) : bool :=
  match fuel, p with
  | S n, Some q =>
      if decide (q = o) then true
      else match kind (obj R q) with
           | Ordinary => on_chain n R o (proto (obj R q))
           | _ => false
           end
  | _, _ => false
  end.

(** The answer of [Reflect.setPrototypeOf(o, p)]: true when [p] is the
    prototype already; otherwise false for an object that is not
    extensible and for a change that would close a cycle. *)
Definition can_setPrototypeOf (r : nat) (p : option nat) (R : Realm) : bool :=
  let t := base R r in
  bool_decide (proto (obj R t) = p) ||
  (extensible (obj R t) && negb (on_chain (S (size (objects R))) R t p)).

(** [Reflect.setPrototypeOf(o, p)]: nothing changes when the answer is
    false, and nothing is thrown. *)
Definition setPrototypeOf (r : nat) (p : option nat) (R : Realm) : Realm :=
  let t := base R r in
  if bool_decide (proto (obj R t) = p) then R
  else if can_setPrototypeOf r p R then update t (with_proto p) R
  else R.

(** The answer of [Reflect.defineProperty(o, name, d)] for a complete
    data descriptor [d]: a new property needs an extensible object; a
    property that is not configurable keeps its attributes, and its
    value too when it is not writable. *)
Definition can_define (o : Obj) (name : string) (d : Desc) : bool :=
  match own o !! name with
  | None => extensible o
  | Some cur =>
      d_configurable cur ||
      (negb (d_configurable d) &&
       bool_decide (d_enumerable d = d_enumerable cur) &&
       (d_writable cur ||
        (negb (d_writable d) && bool_decide (d_value d = d_value cur))))
  end.

(** [Reflect.defineProperty(o, name, d)]: nothing changes when the
    answer is false, and nothing is thrown. *)
Definition defineProperty (r : nat) (name : string) (d : Desc) (R : Realm) : Realm :=
  let t := base R r in
  if can_define (obj R t) name d then update t (with_own name d) R else R.

(** The property that decides an assignment [o[name] = v]: the first one
    of that name from [o] up its prototype chain.  The assignment is
    refused when that property is not writable. *)
Fixpoint writable_up (fuel : nat) (R : Realm) (r : nat) (name : string) : bool :=
  match fuel with
  | 0 => true
  | S n =>
      let o := obj R (base R r) in
      match own o !! name with
      | Some d => d_writable d
      | None =>
          match proto o with
          | Some p => writable_up n R p name
          | None => true
          end
      end
  end.

(** [o[name] = v] in strict code, which the code of a module is: [None]
    stands for the TypeError of an assignment that is refused.  An own
    property keeps its attributes and takes the value; a property that
    is not an own one is created on an extensible object. *)
Definition assign (r : nat) (name : string) (v : JsVal) (R : Realm) : option Realm :=
  let t := base R r in
  let o := obj R t in
  if writable_up (S (size (objects R))) R r name then
    match own o !! name with
    | Some d =>
        Some (update t
                (with_own name (mkDesc v (d_writable d) (d_enumerable d) (d_configurable d)))
                R)
    | None =>
        if extensible o
        then Some (update t (with_own name (mkDesc v true true true)) R)
        else None
    end
  else None.

(** [o[name]]: own properties, then the prototype chain; the [get] trap
    of a mask answers ["toString"] with the proxy of [func.toString]
    when the target has no own ["toString"]. *)
Fixpoint get_fuel (fuel : nat) (R : Realm) (r : nat) (name : string) : JsVal :=
  match fuel with
  | 0 => VUndefined
  | S n =>
      let o := obj R r in
      match kind o with
      | MaskProxy target toString =>
          if bool_decide (name = "toString") && negb (has R target "toString")
          then VRef toString
          else get_fuel n R target name
      | ToStringProxy target => get_fuel n R target name
      | Ordinary =>
          match own o !! name with
          | Some d => d_value d
          | None =>
              match proto o with
              | Some p => get_fuel n R p name
              | None => VUndefined
              end
          end
      end
  end.

Definition get (R : Realm) (r : nat) (name : string) : JsVal :=
  get_fuel (S (size (objects R))) R r name.

(** [new OwnProxy(target, handler)]: a new object. *)
Definition alloc (r : nat) (o : Obj) (R : Realm) : Realm :=
  mkRealm (<[r := o]> (objects R)) (utilMaskFunction R).

(** A proxy object: what is asked of it goes to its traps or to its
    target. *)
Definition proxy_obj (R : Realm) (target : nat) (k : Kind) : Obj :=
  mkObj (callable (obj R target)) k false ∅ None.

(** Modelled from the spec: [util/copy-property.js] is not among the
    sources; it copies the property from source to target, here by
    defining it on the target with the descriptor it has on the
    source. *)
Definition copyProperty (target source : nat) (name : string) (R : Realm) : Realm :=
  match getOwn R source name with
  | Some d => defineProperty target name d R
  | None => R
  end.

(** [cache.set(func, cached).set(proxy, cached)] *)
Definition memoize (func proxy : nat) (cached : MaskRecord) (R : Realm) : Realm :=
  mkRealm (objects R) (<[proxy := cached]> (<[func := cached]> (utilMaskFunction R))).

Definition proxyTypeError : Thrown :=
  mkThrown "TypeError" "Cannot create proxy with a non-object as target or handler" None.

Definition reflectTypeError : Thrown :=
  mkThrown "TypeError" "Reflect.setPrototypeOf called on non-object" None.

Definition assignTypeError : Thrown :=
  mkThrown "TypeError" "Cannot assign to read only property 'prototype'" None.

(** [maskFunction], after the proxies exist: the source is resolved
    through the memo table, the name and the prototype chains of [func]
    are made those of the source as far as the objects allow, and the
    record is stored under both keys (lines 160-198).  The answers of
    the [Reflect] functions are not looked at; the assignment of line
    184 throws when [func.prototype] is read-only, before anything is
    stored. *)
Definition maskFunction_install (func source proxy toString : nat) (R : Realm) : Outcome JsVal * Realm :=
  let cache := utilMaskFunction R in
  let source :=
    match cache !! source with
    | Some found => rec_source found
    | None => source
    end in
  let hasProto := has R func "prototype" in
  let sourceProto :=
    if has R source "prototype" then get R source "prototype" else VUndefined in
  let R := copyProperty func source "name" R in
  let R := setPrototypeOf func (getPrototypeOf R source) R in
  let finish (R : Realm) :=
    let cached := mkMaskRecord proxy source toString in
    (Return (VRef proxy), memoize func proxy cached R) in
  match hasProto, sourceProto with
  | true, VRef sp =>
      match get R func "prototype" with
      | VRef fp => finish (setPrototypeOf fp (getPrototypeOf R sp) R)
      | _ => (Throw reflectTypeError, R)
      end
  | _, _ =>
      let descriptor := getOwn R source "prototype" in
      match descriptor with
      | Some d => finish (defineProperty func "prototype" d R)
      | None =>
          if hasProto then
            match assign func "prototype" sourceProto R with
            | Some R => finish R
            | None => (Throw assignTypeError, R)
            end
          else finish R
      end
  end.

(** [maskFunction] *)
Definition maskFunction (func source : JsVal) (R : Realm) : Outcome JsVal * Realm :=
  match callable_ref R source with
  | None => (Return func, R)
  | Some source =>
      let cache := utilMaskFunction R in
      let cached :=
        match func with
        | VRef f => cache !! f
        | _ => None
        end in
      match cached with
      | Some cached => (Return (VRef (rec_proxy cached)), R)
      | None =>
          match func with
          | VRef f =>
              let proxy := fresh (dom (objects R)) in
              let toString := fresh ({[proxy]} ∪ dom (objects R)) in
              let R := alloc proxy (proxy_obj R f (MaskProxy f toString)) R in
              match get R f "toString" with
              | VRef t =>
                  let R := alloc toString (proxy_obj R t (ToStringProxy t)) R in
                  maskFunction_install f source proxy toString R
              | _ => (Throw proxyTypeError, R)
              end
          | _ => (Throw proxyTypeError, R)
          end
      end
  end.

(** A step that leaves the memo table alone and loses no object. *)
Definition grows (R R' : Realm) : Prop :=
  utilMaskFunction R' = utilMaskFunction R /\
  (forall k, is_Some (objects R !! k) -> is_Some (objects R' !! k)).

(** One call of [maskFunction] somewhere in the program. *)
Definition mask_step (R R' : Realm) : Prop :=
  exists func source, (maskFunction func source R).2 = R'.

(** A step of the program: a call of [maskFunction], or anything else,
    which may create objects and change them in any way but does not
    write to the memo table, as nothing but [maskFunction] does; and
    any number of steps. *)
Definition step (R R' : Realm) : Prop := mask_step R R' \/ grows R R'.

Definition later : Realm -> Realm -> Prop := rtc step.


(** ** A host to run the pipeline on *)

(** [path.extname] for POSIX paths.  Separators at the end of the path
    are skipped and the last component is taken; its extension runs from
    its last dot to its end, and is empty when the component has no dot,
    when its only dot is its first character, and for the component
    [..].  The functions below work on the reversed path. *)
Fixpoint rev_string (s acc : string) : string :=
  match s with
  | EmptyString => acc
  | String c rest => rev_string rest (String c acc)
  end.

Fixpoint drop_slashes (s : string) : string :=
  match s with
  | EmptyString => EmptyString
  | String c rest => if Ascii.eqb c "/"%char then drop_slashes rest else s
  end.

Fixpoint until_slash (s : string) : string :=
  match s with
  | EmptyString => EmptyString
  | String c rest =>
      if Ascii.eqb c "/"%char then EmptyString else String c (until_slash rest)
  end.

(** The text before the first dot and the text after it. *)
Fixpoint cut_dot (s : string) : option (string * string) :=
  match s with
  | EmptyString => None
  | String c rest =>
      if Ascii.eqb c "."%char then Some (EmptyString, rest)
      else match cut_dot rest with
           | Some (a, b) => Some (String c a, b)
           | None => None
           end
  end.

Definition sample_extname (path : string) : string :=
  let part := until_slash (drop_slashes (rev_string path "")) in
  match cut_dot part with
  | None => ""
  | Some (ext, before) =>
      if bool_decide (before = "") || bool_decide (part = "..") then ""
      else rev_string (ext +:+ ".") ""
  end.

Definition sample_error : Thrown := mkThrown "Error" "Error: boom" None.

(** A thrown value that is not an error object, [throw 42]. *)
Definition sample_nonerror : Thrown := mkThrown "" "" None.

Definition sample_mask (e : Thrown) (c : MaskContent) (file : string) (isESM : bool) : Thrown :=
  mkThrown (th_name e) ("masked:" +:+ th_stack e) (th_sourceType e).

(** A transformer that rejects the text ["syntax error"] with an error
    object, throws a value that is not an error on ["throw 42"], and
    otherwise returns the content as code of the requested dialect. *)
Definition sample_transform (entry : Entry) (content : string) (opts : SourceType * SourceType) : Foreign Cached :=
  fun h =>
    if bool_decide (content = "syntax error")
    then (Throw (mkThrown "SyntaxError" "SyntaxError: unexpected" (Some opts.2)), h)
    else if bool_decide (content = "throw 42")
    then (Throw sample_nonerror, h)
    else (Return (mkCached (TString content) opts.2 true false None []), h).

(** A host [_compile] in the manner of Node: it wraps the content with
    the function installed in [Module.wrap], which for the two overrides
    of the pipeline puts the default back, and runs the module; the
    module of the file [/app/throws.js] throws. *)
Definition sample_mod_compile (entry : Entry) (content file : string) : Foreign Value :=
  fun h =>
    let h :=
      match Module_wrap h with
      | moduleWrapAsyncCJS => (moduleWrapAsyncCJS_body content h).2
      | moduleWrapESM => (moduleWrapESM_body content h).2
      | _ => h
      end in
    if bool_decide (file = "/app/throws.js")
    then (Throw sample_error, h)
    else (Return (HostValue 1), h).

Definition sample_host : Host := {|
  extname := sample_extname;
  resolve := fun dir name => dir +:+ "/" +:+ name;
  support_await := true;
  isInspect := false;
  default_package := 0;
  getSourceMappingURL := fun _ => false;
  createSourceMap := fun _ _ => "{}";
  encodeURI := fun s => s;
  getURLFromFilePath := fun f => "file://" +:+ f;
  isError := fun e => negb (bool_decide (th_name e = ""));
  isStackTraceMasked := fun e => starts_with "masked:" (th_stack e);
  readFileFast := fun path _ => TString ("/*" +:+ path +:+ "*/");
  captureStackTrace := fun e _ => e;
  maskStackTrace := sample_mask;
  Compiler_from := fun entry _ =>
    if bool_decide (cacheName entry = "disk.js")
    then Some (mkCached TUndefined SCRIPT false false None [])
    else None;
  Compiler_compile := sample_transform;
  validateESM := fun entry h =>
    if bool_decide (cacheName entry = "bad.mjs")
    then (Throw sample_error, h) else (Return tt, h);
  mod_compile := sample_mod_compile
|}.

Definition sample_options (m : string) (dbg aw vs : bool) : Options :=
  mkOptions m dbg aw (mkCjs vs) (Some false) false.

Definition sample_package (o : Options) : Package := mkPackage 1 o "/app/.cache".

Definition sample_entry (o : Options) (name : string) : Entry :=
  mkEntry 7 (sample_package o) name ("/app/" +:+ name) "_x1" None.

Definition sample_heap (w : Wrapper) (depth : nat) (c : gmap (nat * string) Slot) : Heap :=
  mkHeap w None depth false c ∅ ∅ ∅ ∅ 100.

(** Cached compilations of the sample package. *)
Definition script_unchanged : Cached :=
  mkCached (TString "exports.a=1;return") SCRIPT false true None [].

Definition script_changed : Cached :=
  mkCached (TString "_x1.d(1);") SCRIPT true true None [].

Definition module_record (specifiers : option (gmap string nat)) : Cached :=
  mkCached (TString "_x1.x([]);") MODULE true false specifiers [].

Definition cache_with (name : string) (s : Slot) : gmap (nat * string) Slot :=
  {[ (1, name) := s ]}.

(** Await enabled, no debug, no compatibility variables. *)
Definition await_options : Options := sample_options "auto" false true false.



(** The same in debug mode. *)
Definition debug_options : Options := sample_options "auto" true true false.

(** ** The memo table of the function mask *)

(** The records of the memo table are stored under their proxy too, and
    every key is an object of the realm.  This holds of the empty table
    and is kept by every step of the program. *)
Definition memo_wf (R : Realm) : Prop :=
  (forall k r, utilMaskFunction R !! k = Some r ->
               utilMaskFunction R !! rec_proxy r = Some r) /\
  (forall k, is_Some (utilMaskFunction R !! k) -> is_Some (objects R !! k)).

(** The attributes of the [name] and of the [prototype] of a function,
    of the [prototype] of a class, and of a method. *)
Definition name_desc (v : JsVal) : Desc := mkDesc v false false true.
Definition prototype_desc (v : JsVal) : Desc := mkDesc v true false false.
Definition class_prototype_desc (v : JsVal) : Desc := mkDesc v false false false.
Definition method_desc (v : JsVal) : Desc := mkDesc v true false true.

Definition function_obj (name prototype : nat) : Obj :=
  mkObj true Ordinary true
    {[ "name" := name_desc (VPrimitive name);
       "prototype" := prototype_desc (VRef prototype) ]} (Some 1).

Definition class_obj (name prototype : nat) (parent : nat) : Obj :=
  mkObj true Ordinary true
    {[ "name" := name_desc (VPrimitive name);
       "prototype" := class_prototype_desc (VRef prototype) ]} (Some parent).

Definition plain_obj (p : option nat) : Obj := mkObj false Ordinary true ∅ p.

(** A realm with [Function.prototype] (1), its native [toString] (2), a
    function [func] (10) with its prototype object (11) and a function
    [source] (20) with its prototype object (21). *)
Definition sample_realm : Realm :=
  mkRealm
    (<[1 := mkObj false Ordinary true {[ "toString" := method_desc (VRef 2) ]} None]>
     (<[2 := mkObj true Ordinary true ∅ (Some 1)]>
     (<[10 := function_obj 0 11]>
     (<[11 := plain_obj None]>
     (<[20 := function_obj 1 21]>
     (<[21 := plain_obj None]> ∅))))))
    ∅.

(** The same with a class [A] (30), a class [B extends A] (40), their
    prototype objects (31, 41), and an arrow function (50), which has no
    [prototype]. *)
Definition class_realm : Realm :=
  mkRealm
    (<[30 := class_obj 2 31 1]>
     (<[31 := plain_obj None]>
     (<[40 := class_obj 3 41 30]>
     (<[41 := plain_obj (Some 31)]>
     (<[50 := mkObj true Ordinary true {[ "name" := name_desc (VPrimitive 4) ]} (Some 1)]>
        (objects sample_realm))))))
    ∅.

(** Two keys of the memo table with the same proxy are one key, or one
    of them is the proxy: no two functions share a mask. *)
Definition proxies_own (R : Realm) : Prop :=
  forall k1 k2 r1 r2,
    utilMaskFunction R !! k1 = Some r1 ->
    utilMaskFunction R !! k2 = Some r2 ->
    rec_proxy r1 = rec_proxy r2 ->
    k1 = k2 \/ k1 = rec_proxy r1 \/ k2 = rec_proxy r1.

(** A heap of the parse phase, with the sample entry at PARSING_STARTED. *)
Definition parsing_heap (c : gmap (nat * string) Slot) : Heap :=
  mkHeap wrap None 0 true c ∅ {[ 7 := PARSING_STARTED ]} ∅ ∅ 100.

(** A cached compilation with two warnings. *)
Definition script_with_warnings : Cached :=
  mkCached (TString "x=1") SCRIPT false false None
    [mkWarning "WRN_ARGUMENTS_ACCESS" ["1"; "2"]; mkWarning "WRN_TDZ_ACCESS" ["x"]].

(** Warnings enabled. *)
Definition warning_options : Options :=
  mkOptions "auto" false true (mkCjs false) (Some false) true.

(** ** The resolution policy in the words of the specification *)

(** The hint is the import/export dialect for the alternate extension
    and the script dialect otherwise.  Mode "all" forces the
    import/export dialect, mode "js" the unclassified one; else the hint
    is used. *)
Definition spec_dialect (mode ext : string) : SourceType * SourceType :=
  let hint := if decide (ext = ".mjs") then MODULE else SCRIPT in
  (hint,
   if decide (mode = "all") then MODULE
   else if decide (mode = "js") then UNAMBIGUOUS
   else hint).

(** ** Facts about strings *)

Lemma append_assoc (a b c : string) : (a +:+ b) +:+ c = a +:+ (b +:+ c).
Proof. induction a as [|x a IH]; simpl; [done | by rewrite IH]. Qed.






Lemma split_commas_plain (s : string) :
  string_forall (fun a => negb (Ascii.eqb ","%char a)) s = true ->
  split_commas s = [s].
Proof.
  induction s as [|x s IH]; cbn [split_commas string_forall]; [done |].
  intros [Hx Hs]%andb_prop. rewrite Ascii.eqb_sym.
  destruct (Ascii.eqb ","%char x); [done |]. by rewrite (IH Hs).
Qed.








(** ** Facts about the pipeline *)

Ltac run :=
  unfold heap_of, outcome_of, log_of, run_compile, Runtime_enable,
    throw_masked, capture, readCachedCode, run_transform,
    bind, gets, ret, modify, tell, throw, call, try_finally, try_catch;
  simpl.

Section PipelineFacts.
Context `{X : Host}.

Lemma keys_length (o : gmap string nat) : length (keys o) = size o.
Proof. unfold keys. by rewrite length_fmap, length_map_to_list. Qed.


(** C2.  [useAsyncWrapper] answers true exactly when the package enables
    await and the host supports it, and the cached compilation is either
    not of the import/export dialect, or is of it with an
    [exportSpecifiers] map that is absent or has no key; otherwise it
    answers false. *)
Theorem useAsyncWrapper_true_iff (entry : Entry) (h : Heap) :
  useAsyncWrapper entry h = true <->
  await (options (package entry)) = true /\
  support_await = true /\
  ((forall c, cache_compile h !! cache_key entry = Some (Compiled c) ->
              sourceType c <> MODULE) \/
   (exists c, cache_compile h !! cache_key entry = Some (Compiled c) /\
              sourceType c = MODULE /\
              (exportSpecifiers c = None \/
               exists o, exportSpecifiers c = Some o /\ size o = 0))).
Proof.
  unfold useAsyncWrapper, cache_key.
  destruct (await (options (package entry))), support_await; simpl;
    try (split; [done | by intros (? & ? & _)]).
  destruct (cache_compile h !! (pid (package entry), cacheName entry))
    as [[|c]|] eqn:E; simpl.
  - split; [|done]. intros _. do 2 (split; [done |]). left. by intros c [=].
  - case_bool_decide as Hst; simpl.
    + destruct (exportSpecifiers c) as [o|] eqn:Ho.
      * rewrite keys_length. case_bool_decide as Hsz.
        -- split; [|done]. intros _. do 2 (split; [done |]).
           right. exists c. repeat split; [done |]. right. by exists o.
        -- split; [done |]. intros (_ & _ & [Hn | (c' & [= <-] & _ & [Hnone | (o' & Ho' & Hz)])]).
           ++ by destruct (Hn c).
           ++ congruence.
           ++ congruence.
      * split; [|done]. intros _. do 2 (split; [done |]).
        right. exists c. repeat split; [done |]. by left.
    + split; [|done]. intros _. do 2 (split; [done |]). left. by intros c' [= <-].
  - split; [|done]. intros _. do 2 (split; [done |]). left. by intros c [=].
Qed.


Lemma dialect_spec (o : Options) (filename : string) :
  dialect o filename = spec_dialect (mode o) (extname filename).
Proof.
  unfold dialect, spec_dialect.
  repeat case_decide; congruence.
Qed.

Lemma tryCompileCode_transform_calls caller entry content opts h call :
  call ∈ log_of (tryCompileCode caller entry content opts h) ->
  is_transform call = true ->
  call = CallCompilerCompile (eid entry) content opts.1 opts.2.
Proof.
  unfold tryCompileCode.
  destruct (debug (options (package entry))); run;
    destruct (Compiler_compile entry content opts h) as [[c|e] h1]; simpl;
    try (by intros ->%list_elem_of_singleton).
  destruct (rethrown_unchanged e); simpl.
  - by intros ->%list_elem_of_singleton.
  - intros Hin Ht. 
    repeat (apply elem_of_cons in Hin as [-> | Hin]; [done || by simpl in Ht |]).
    by apply elem_of_nil in Hin.
Qed.


(** The calls of the execution side are never calls of the transformer. *)
Ltac in_log Hin :=
  repeat (apply elem_of_cons in Hin as [-> | Hin]; [done |]);
  try (by apply elem_of_nil in Hin).

Lemma tryCompileCJS_calls (entry : Entry) (h : Heap) (c : Call) :
  c ∈ log_of (tryCompileCJS entry h) -> is_transform c = false.
Proof.
  unfold tryCompileCJS. run.
  destruct (cached_of entry h) as [s|]; simpl; [| by intros ?%elem_of_nil].
  destruct (slot_changed s); [| destruct (useAsyncWrapper entry h)]; simpl;
    destruct (mod_compile entry _ _ _); simpl; intros Hin; in_log Hin.
Qed.

Lemma tryCompileESM_calls (entry : Entry) (h : Heap) (c : Call) :
  c ∈ log_of (tryCompileESM entry h) -> is_transform c = false.
Proof.
  unfold tryCompileESM. run.
  destruct (cache_compile h !! _) as [s|]; simpl; [| by intros ?%elem_of_nil].
  destruct (no_url entry h), (vars (cjs (options (package entry)))); simpl;
    destruct (mod_compile entry _ _ _); simpl; intros Hin; in_log Hin.
Qed.

Lemma tryCompileCached_calls (entry : Entry) (h : Heap) (c : Call) :
  c ∈ log_of (tryCompileCached entry h) -> is_transform c = false.
Proof.
  unfold tryCompileCached. run.
  destruct (bool_decide (requireDepth h = 0)), (debug (options (package entry)));
    simpl;
    match goal with
    | |- context [(if ?b then tryCompileESM else tryCompileCJS) entry ?h0] =>
      assert (c ∈ log_of ((if b then tryCompileESM else tryCompileCJS) entry h0) ->
              is_transform c = false) as Hinner
        by (destruct b; [apply tryCompileESM_calls | apply tryCompileCJS_calls]);
      destruct ((if b then tryCompileESM else tryCompileCJS) entry h0)
        as [[[v|e] h1] l]
    end; unfold log_of in Hinner; simpl in *; rewrite ?app_nil_r; try done;
    destruct (rethrown_unchanged e); simpl; rewrite ?app_nil_r; try done;
    (intros [Hin | Hin]%elem_of_app; [by apply Hinner | in_log Hin]).
Qed.

Lemma tryValidateESM_calls (caller : nat) (entry : Entry) (h : Heap) (c : Call) :
  c ∈ log_of (tryValidateESM caller entry h) -> is_transform c = false.
Proof.
  unfold tryValidateESM.
  destruct (debug (options (package entry))); run;
    destruct (validateESM entry h) as [[u|e] h1]; simpl;
    try solve [intros Hin; in_log Hin].
  destruct (rethrown_unchanged e); simpl; intros Hin; in_log Hin.
Qed.

Lemma for_each_warn_calls (ws : list Warning) (filename : string) (h : Heap) :
  let body := fun w => tell (CallWarn (w_code w) filename (w_args w)) in
  heap_of (for_each ws body h) = h /\
  outcome_of (for_each ws body h) = Return tt /\
  forall c, c ∈ log_of (for_each ws body h) -> is_transform c = false.
Proof.
  intros body.
  induction ws as [|w ws (IHh & IHo & IHl)]; simpl.
  - run. repeat split. by intros c ?%elem_of_nil.
  - unfold bind.
    change (body w h) with (Return tt, h, [CallWarn (w_code w) filename (w_args w)]).
    cbv beta iota.
    destruct (for_each ws body h) as [[o h1] l].
    unfold heap_of, outcome_of, log_of in *. simpl in *. subst.
    repeat split.
    intros c [-> | Hin]%elem_of_cons; [done | by apply IHl].
Qed.

Lemma compile_run_calls (caller : nat) (entry : Entry) (filename : string) (fallback : option (Foreign Value)) (cached : Cached) (h : Heap) (c : Call) :
  c ∈ log_of (compile_run caller entry filename fallback cached h) ->
  is_transform c = false.
Proof.
  unfold compile_run.
  unfold bind at 1. unfold gets at 1.
  unfold bind at 1.
  set (warned := (if opt_warnings (options (package entry)) && parsing h
                  then for_each (warnings cached) _ else ret tt) h).
  assert (heap_of warned = h /\ outcome_of warned = Return tt /\
          forall c, c ∈ log_of warned -> is_transform c = false) as (Wh & Wo & Wl).
  { subst warned. destruct (_ && _); [apply for_each_warn_calls |].
    run. repeat split. by intros c0 ?%elem_of_nil. }
  destruct warned as [[o h1] l]. unfold heap_of, outcome_of, log_of in Wh, Wo, Wl.
  simpl in Wh, Wo, Wl. subst o h1. simpl.
  unfold bind at 1. unfold gets at 1.
  destruct (parsing h); simpl.
  - run.
    destruct (_ && _ && _).
    + destruct fallback as [f|]; simpl.
      * destruct (f h) as [o h2]. simpl. rewrite ?app_nil_r.
        intros [Hin | Hin]%elem_of_app; [by apply Wl | in_log Hin].
      * rewrite ?app_nil_r. apply Wl.
    + simpl.
      destruct (slot_isESM (cached_of entry h) && bool_decide (state_of entry h = PARSING_STARTED)).
      * pose proof (tryValidateESM_calls caller entry h c) as Hv.
        destruct (tryValidateESM caller entry h) as [[[u|e] h2] l2];
          unfold log_of in Hv; simpl in *; rewrite ?app_nil_r;
          (intros [Hin | Hin]%elem_of_app; [by apply Wl | by apply Hv]).
      * simpl. rewrite ?app_nil_r. apply Wl.
  - run.
    pose proof (tryCompileCached_calls entry (set_entry_state entry EXECUTION_STARTED h) c) as Hc.
    destruct (tryCompileCached entry _) as [[o h2] l2].
    unfold log_of in Hc. simpl in *.
    rewrite ?app_nil_r. intros [Hin | Hin]%elem_of_app; [by apply Wl | by apply Hc].
Qed.

Lemma compile_cached_transform_calls (caller : nat) (entry : Entry) (content filename : string) (h : Heap) (call : Call) :
  call ∈ log_of (compile_cached caller entry content filename h) ->
  is_transform call = true ->
  call = CallCompilerCompile (eid entry) content
           (dialect (options (package entry)) filename).1
           (dialect (options (package entry)) filename).2.
Proof.
  unfold compile_cached.
  unfold bind at 1. unfold gets at 1.
  destruct (cache_compile h !! (pid (package entry), cacheName entry))
    as [[|c]|] eqn:E.
  - run. destruct (Compiler_from entry h) as [c|]; simpl.
    + intros Hin Ht.
      repeat (apply elem_of_cons in Hin as [-> | Hin]; [by simpl in Ht |]).
      by apply elem_of_nil in Hin.
    + match goal with
      | |- context [tryCompileCode ?a ?b ?c ?d ?e] =>
          pose proof (tryCompileCode_transform_calls a b c d e call) as Hc;
          destruct (tryCompileCode a b c d e) as [[[r|t] h1] l]
      end; simpl in *; intros Hin Ht;
        apply elem_of_cons in Hin as [-> | Hin]; try done;
        apply Hc; try done; by rewrite ?app_nil_r in Hin.
  - run. intros Hin. by apply elem_of_nil in Hin.
  - run.
    match goal with
    | |- context [tryCompileCode ?a ?b ?c ?d ?e] =>
        pose proof (tryCompileCode_transform_calls a b c d e call) as Hc;
        destruct (tryCompileCode a b c d e) as [[[r|t] h1] l]
    end; simpl in *; intros Hin Ht;
      apply Hc; try done; by rewrite ?app_nil_r in Hin.
Qed.

(** C3.  The hint and the source type that [compile] hands to the
    transformer are a function of the package mode and of the extension
    of the file name alone: the source type is MODULE for mode "all",
    UNAMBIGUOUS for mode "js", and otherwise SCRIPT unless the extension
    is ".mjs", which makes the hint MODULE and turns a SCRIPT source
    type into MODULE; equal modes and extensions give equal pairs, and
    every call of the transformer by [compile] carries that pair. *)
Theorem dialect_resolution (entry : Entry) (filename : string) :
  let o := options (package entry) in
  dialect o filename = spec_dialect (mode o) (extname filename) /\
  (forall (o' : Options) (filename' : string),
     mode o' = mode o -> extname filename' = extname filename ->
     dialect o' filename' = dialect o filename) /\
  (forall caller content fallback h call,
     call ∈ log_of (compile caller entry content filename fallback h) ->
     is_transform call = true ->
     call = CallCompilerCompile (eid entry) content
              (spec_dialect (mode o) (extname filename)).1
              (spec_dialect (mode o) (extname filename)).2).
Proof.
  intros o. split; [apply dialect_spec |]. split.
  - intros o' filename' Hm He. rewrite !dialect_spec. by rewrite Hm, He.
  - intros caller content fallback h call. rewrite <- dialect_spec.
    unfold compile, bind.
    pose proof (compile_cached_transform_calls caller entry content filename h call) as Hc.
    destruct (compile_cached caller entry content filename h) as [[[cached|e] h1] l1];
      unfold log_of in Hc; simpl in Hc; [| exact Hc].
    pose proof (compile_run_calls caller entry filename fallback cached h1 call) as Hr.
    destruct (compile_run caller entry filename fallback cached h1) as [[r h2] l2].
    unfold log_of in *. simpl in *.
    intros [Hin | Hin]%elem_of_app Ht; [by apply Hc |].
    rewrite (Hr Hin) in Ht. discriminate.
Qed.

(** C1, as the code has it.  A builder that finds no cached compilation
    throws before it touches [Module.wrap].  Otherwise the host's
    [_compile] is called once, with the builder's override in
    [Module.wrap] when the builder installs it and with the value from
    before the call when it does not; and after the call, whether it
    returns or throws, [Module.wrap] is the value [_compile] left in it,
    except that the builder's own override is replaced by the default
    [wrap].  So when [_compile] leaves [Module.wrap] as it found it, the
    value is the one from before the call unless the builder installed
    its override or that value was the builder's own override, and then
    it is [wrap]; when [_compile] puts [wrap] back it is [wrap].  The
    value read at the start of the call is never what is assigned. *)
Theorem wrapper_restored_to_default (entry : Entry) (h : Heap) :
  let before := Module_wrap h in
  (cached_of entry h = None ->
   heap_of (tryCompileCJS entry h) = h /\ heap_of (tryCompileESM entry h) = h) /\
  (forall s, cached_of entry h = Some s ->
   let installsCJS := negb (slot_changed s) && useAsyncWrapper entry h in
   let installsESM := negb (vars (cjs (options (package entry)))) in
   (exists content h0,
      let r := mod_compile entry content (filename entry) h0 in
      let after := Module_wrap (heap_of (tryCompileCJS entry h)) in
      outcome_of (tryCompileCJS entry h) = r.1 /\
      Module_wrap h0 = (if installsCJS then moduleWrapAsyncCJS else before) /\
      after = (if decide (Module_wrap r.2 = moduleWrapAsyncCJS)
               then wrap else Module_wrap r.2) /\
      (Module_wrap r.2 = Module_wrap h0 ->
       after = (if installsCJS || bool_decide (before = moduleWrapAsyncCJS)
                then wrap else before)) /\
      (Module_wrap r.2 = wrap -> after = wrap)) /\
   (exists content h0,
      let r := mod_compile entry content (filename entry) h0 in
      let after := Module_wrap (heap_of (tryCompileESM entry h)) in
      outcome_of (tryCompileESM entry h) = r.1 /\
      Module_wrap h0 = (if installsESM then moduleWrapESM else before) /\
      after = (if decide (Module_wrap r.2 = moduleWrapESM)
               then wrap else Module_wrap r.2) /\
      (Module_wrap r.2 = Module_wrap h0 ->
       after = (if installsESM || bool_decide (before = moduleWrapESM)
                then wrap else before)) /\
      (Module_wrap r.2 = wrap -> after = wrap))).
Proof.
  intros before. split.
  - unfold cached_of, cache_key. intros E.
    unfold tryCompileCJS, tryCompileESM, cached_of, cache_key. run.
    by rewrite E.
  - intros s E installsCJS installsESM. split.
    + unfold tryCompileCJS. run. rewrite E. simpl.
      subst installsCJS before.
      destruct (slot_changed s); [| destruct (useAsyncWrapper entry h)]; simpl;
        match goal with
        | |- context [mod_compile entry ?c ?f ?h0] => exists c, h0
        end;
        destruct (mod_compile entry _ _ _) as [o h1]; simpl;
        (split; [done |]); (split; [done |]);
        (split; [by case_decide |]);
        (split; intros Hk; repeat case_decide; try case_bool_decide;
           simpl in *; congruence).
    + unfold cached_of, cache_key in E.
      unfold tryCompileESM. run. rewrite E. simpl.
      subst installsESM before.
      destruct (no_url entry h), (vars (cjs (options (package entry)))); simpl;
        match goal with
        | |- context [mod_compile entry ?c ?f ?h0] => exists c, h0
        end;
        destruct (mod_compile entry _ _ _) as [o h1]; simpl;
        (split; [done |]); (split; [done |]);
        (split; [by case_decide |]);
        (split; intros Hk; repeat case_decide; try case_bool_decide;
           simpl in *; congruence).
Qed.


Lemma maybeSourceMap_cases (entry : Entry) (content : JsText) :
  maybeSourceMap entry content = "" \/
  maybeSourceMap entry content =
    "//# sourceMappingURL=data:application/json;charset=utf-8," +:+
    encodeURI (createSourceMap (filename entry) content).
Proof.
  unfold maybeSourceMap.
  destruct (_ && _ && _); [by right | by left].
Qed.






(** What [tryCompileESM] hands to [mod._compile]. *)
Lemma tryCompileESM_handed (entry : Entry) (h : Heap) (s : Slot) :
  cached_of entry h = Some s ->
  handed (log_of (tryCompileESM entry h)) =
  [ let content :=
      wrapESM entry (slot_topLevelReturn s) (useAsyncWrapper entry h)
        (vars (cjs (options (package entry)))) (slot_code s) in
    content +:+ maybeSourceMap entry (TString content) ].
Proof.
  unfold cached_of, cache_key. intros E.
  unfold tryCompileESM. run. rewrite E. simpl.
  destruct (no_url entry h), (vars (cjs (options (package entry)))); simpl;
    by destruct (mod_compile entry _ _ _).
Qed.

(** What [tryCompileCJS] hands to [mod._compile] when the cached code
    was changed by the transformer. *)
Lemma tryCompileCJS_handed_changed (entry : Entry) (h : Heap) (s : Slot) :
  cached_of entry h = Some s ->
  slot_changed s = true ->
  handed (log_of (tryCompileCJS entry h)) =
  [ let content :=
      wrapCJS entry (slot_topLevelReturn s) (useAsyncWrapper entry h) (slot_code s) in
    content +:+ maybeSourceMap entry (TString content) ].
Proof.
  intros E Hc. unfold tryCompileCJS. run. rewrite E. simpl. rewrite Hc. simpl.
  by destruct (mod_compile entry _ _ _).
Qed.



Lemma starts_with_head (tlr asy : bool) (r : string) :
  starts_with (if tlr then "return this.r((" else "this.r((")
    ((if tlr then "return " else "") +:+ "this.r((" +:+
     (if asy then "async " else "") +:+ r) = true.
Proof. by destruct tlr, asy. Qed.

(** C5, as the code has it.  With [topLevelReturn] recorded, the text
    handed to the host begins with ["return this.r(("] in
    [tryCompileESM], and in [tryCompileCJS] when the cached compilation
    is marked changed; without it the text begins with the registration
    call ["this.r(("] itself. *)
Theorem topLevelReturn_prefix (entry : Entry) (h : Heap) (c : Cached) :
  cached_of entry h = Some (Compiled c) ->
  let head := if topLevelReturn c then "return this.r((" else "this.r((" in
  (exists content,
     handed (log_of (tryCompileESM entry h)) = [content] /\
     starts_with head content = true) /\
  (changed c = true ->
   exists content,
     handed (log_of (tryCompileCJS entry h)) = [content] /\
     starts_with head content = true).
Proof.
  intros E head. split.
  - eexists. split; [exact (tryCompileESM_handed entry h _ E) |].
    cbv zeta. unfold wrapESM. rewrite !append_assoc. apply starts_with_head.
  - intros Hc. eexists.
    split; [exact (tryCompileCJS_handed_changed entry h _ E Hc) |].
    cbv zeta. unfold wrapCJS. rewrite !append_assoc. apply starts_with_head.
Qed.

(** C10.  When the cached compilation is not marked changed,
    [tryCompileCJS] hands the cached code to the host as it is, followed
    by nothing or by the source-map comment; it makes no other call, so
    [Runtime.enable] is not called, and the runtime bindings are those
    from before the call when the host starts, and those the host left
    when the call ends. *)
Theorem tryCompileCJS_unchanged_verbatim (entry : Entry) (h : Heap) (c : Cached) :
  cached_of entry h = Some (Compiled c) ->
  changed c = false ->
  let sm := maybeSourceMap entry (code c) in
  let content := text_string (code c) +:+ sm in
  let h0 :=
    if useAsyncWrapper entry h
    then set_Module_wrap moduleWrapAsyncCJS h else h in
  (sm = "" \/
   sm = "//# sourceMappingURL=data:application/json;charset=utf-8," +:+
        encodeURI (createSourceMap (filename entry) (code c))) /\
  log_of (tryCompileCJS entry h) =
    [CallModCompile (eid entry) content (filename entry)] /\
  outcome_of (tryCompileCJS entry h) =
    (mod_compile entry content (filename entry) h0).1 /\
  entry_runtime h0 = entry_runtime h /\
  next_object h0 = next_object h /\
  entry_runtime (heap_of (tryCompileCJS entry h)) =
    entry_runtime (mod_compile entry content (filename entry) h0).2.
Proof.
  intros E Hc sm content h0.
  split; [apply maybeSourceMap_cases |].
  unfold tryCompileCJS. run. rewrite E. simpl. rewrite Hc.
  subst h0 content sm.
  destruct (useAsyncWrapper entry h); simpl;
    destruct (mod_compile entry _ _ _); simpl; by case_decide.
Qed.





Lemma mask_calls_app (l1 l2 : list Call) :
  mask_calls (l1 ++ l2) = mask_calls l1 + mask_calls l2.
Proof. unfold mask_calls. by rewrite filter_app, length_app. Qed.

(** The two wrapper builders never call the masker themselves. *)
Lemma tryCompileCJS_no_mask (entry : Entry) (h : Heap) :
  mask_calls (log_of (tryCompileCJS entry h)) = 0.
Proof.
  unfold tryCompileCJS. run.
  destruct (cached_of entry h) as [s|]; simpl; [|done].
  destruct (slot_changed s); [| destruct (useAsyncWrapper entry h)]; simpl;
    by destruct (mod_compile entry _ _ _).
Qed.

Lemma tryCompileESM_no_mask (entry : Entry) (h : Heap) :
  mask_calls (log_of (tryCompileESM entry h)) = 0.
Proof.
  unfold tryCompileESM. run.
  destruct (cache_compile h !! _) as [s|]; simpl; [|done].
  destruct (no_url entry h), (vars (cjs (options (package entry)))); simpl;
    by destruct (mod_compile entry _ _ _).
Qed.

(** C7.  Outside debug mode, a value thrown by the transformer in
    [tryCompileCode], by the validator in [tryValidateESM] or by the
    wrapper builder in [tryCompileCached] is rethrown as it is, with no
    call of [maskStackTrace], when it is not an error object or its
    trace is already masked; otherwise what propagates is the result of
    [maskStackTrace], which is called exactly once.  When the masker
    marks what it returns, the value that leaves a handler passes every
    later handler unchanged. *)
Theorem masking_applied_once (caller : nat) (entry : Entry) (h h1 : Heap) (e : Thrown) :
  debug (options (package entry)) = false ->
  let unchanged := negb (isError e) || isStackTraceMasked e in
  let file := filename entry in
  (forall content opts,
     Compiler_compile entry content opts h = (Throw e, h1) ->
     let r := tryCompileCode caller entry content opts h in
     let masked :=
       maskStackTrace (captureStackTrace (delete_sourceType e) caller)
         (ContentText content) file (bool_decide (th_sourceType e = Some MODULE)) in
     outcome_of r = Throw (if unchanged then e else masked) /\
     mask_calls (log_of r) = (if unchanged then 0 else 1) /\
     ((forall x c f b, isStackTraceMasked (maskStackTrace x c f b) = true) ->
      rethrown_unchanged (if unchanged then e else masked) = true)) /\
  (validateESM entry h = (Throw e, h1) ->
   let r := tryValidateESM caller entry h in
   let masked :=
     maskStackTrace (captureStackTrace e caller) (ContentThunk file) file true in
   outcome_of r = Throw (if unchanged then e else masked) /\
   mask_calls (log_of r) = (if unchanged then 0 else 1) /\
   ((forall x c f b, isStackTraceMasked (maskStackTrace x c f b) = true) ->
    rethrown_unchanged (if unchanged then e else masked) = true)) /\
  (forall l,
     let isESM := slot_isESM (cached_of entry h) in
     let installed :=
       if bool_decide (requireDepth h = 0) then set_stat (Some ∅) h else h in
     (if isESM then tryCompileESM else tryCompileCJS) entry installed = (Throw e, h1, l) ->
     let r := tryCompileCached entry h in
     let masked := maskStackTrace e (ContentThunk file) file isESM in
     outcome_of r = Throw (if unchanged then e else masked) /\
     mask_calls (log_of r) = (if unchanged then 0 else 1) /\
     ((forall x c f b, isStackTraceMasked (maskStackTrace x c f b) = true) ->
      rethrown_unchanged (if unchanged then e else masked) = true)).
Proof.
  intros Hdebug unchanged file.
  assert (forall masked,
    (forall x c f b, isStackTraceMasked (maskStackTrace x c f b) = true) ->
    (exists x c f b, masked = maskStackTrace x c f b) ->
    rethrown_unchanged (if unchanged then e else masked) = true) as Hnext.
  { intros masked Hmark (x & c & f & b & ->). unfold rethrown_unchanged.
    destruct unchanged eqn:Hu; [exact Hu |].
    rewrite Hmark. apply orb_true_r. }
  split; [| split].
  - intros content opts Hthrow r masked.
    split; [| split; [| intros Hm; apply Hnext; eauto]].
    all: subst r masked; unfold tryCompileCode; rewrite Hdebug; run;
      rewrite Hthrow; simpl; unfold rethrown_unchanged; fold unchanged;
      by destruct unchanged.
  - intros Hthrow r masked.
    split; [| split; [| intros Hm; apply Hnext; eauto]].
    all: subst r masked; unfold tryValidateESM; rewrite Hdebug; run;
      rewrite Hthrow; simpl; unfold rethrown_unchanged; fold unchanged;
      by destruct unchanged.
  - intros l isESM installed Hthrow r masked.
    assert (mask_calls l = 0) as Hl.
    { change l with (log_of (Throw (A:=Value) e, h1, l)). rewrite <- Hthrow.
      destruct isESM; [apply tryCompileESM_no_mask | apply tryCompileCJS_no_mask]. }
    split; [| split; [| intros Hm; apply Hnext; eauto]].
    all: subst r masked; unfold tryCompileCached; rewrite Hdebug; run;
      fold (cache_key entry); fold (cached_of entry h); fold isESM.
    all: subst installed; destruct (bool_decide (requireDepth h = 0)); simpl;
      rewrite Hthrow; simpl; unfold rethrown_unchanged; fold unchanged;
      destruct unchanged; simpl; rewrite ?app_nil_r, ?mask_calls_app, ?Hl; done.
Qed.


(** The statistics slot of [moduleState] *)

(** X8.  Outside debug mode the statistics slot is null when a call
    of [tryCompileCached] at depth zero ends, whether the wrapper
    builder returned or threw and whatever the host did to the slot. *)
Lemma stat_reset_outside_debug (entry : Entry) (h : Heap) :
  debug (options (package entry)) = false ->
  requireDepth h = 0 ->
  stat (heap_of (tryCompileCached entry h)) = None.
Proof.
  intros Hd H0. unfold tryCompileCached. rewrite Hd. run. rewrite H0. simpl.
  match goal with
  | |- context [(if ?b then tryCompileESM else tryCompileCJS) entry ?h0] =>
      destruct ((if b then tryCompileESM else tryCompileCJS) entry h0)
        as [[[v|e] h1] l]
  end; simpl; [done |].
  by destruct (rethrown_unchanged e).
Qed.

(** In debug mode the slot is null when an outermost call returns. *)
Lemma stat_reset_debug_return (entry : Entry) (h : Heap) (v : Value) :
  debug (options (package entry)) = true ->
  requireDepth h = 0 ->
  outcome_of (tryCompileCached entry h) = Return v ->
  stat (heap_of (tryCompileCached entry h)) = None.
Proof.
  intros Hd H0. unfold tryCompileCached. rewrite Hd. run. rewrite H0. simpl.
  match goal with
  | |- context [(if ?b then tryCompileESM else tryCompileCJS) entry ?h0] =>
      destruct ((if b then tryCompileESM else tryCompileCJS) entry h0)
        as [[[v'|e] h1] l]
  end; simpl; done.
Qed.

(** In debug mode a throw at depth zero skips the assignment: the slot
    is what the wrapper builder left. *)
Lemma stat_debug_throw (entry : Entry) (h h1 : Heap) (e : Thrown) (l : list Call) :
  debug (options (package entry)) = true ->
  requireDepth h = 0 ->
  tryCompile_of entry h entry (set_stat (Some ∅) h) = (Throw e, h1, l) ->
  tryCompileCached entry h = (Throw e, h1, l).
Proof.
  unfold tryCompile_of, cached_of, cache_key.
  intros Hd H0 Ht. unfold tryCompileCached. rewrite Hd. run. rewrite H0. simpl.
  by rewrite Ht.
Qed.

(** X9.  At a nonzero depth [tryCompileCached] never assigns the
    statistics slot: the heap it leaves is the heap the wrapper builder
    left, in debug mode and outside it. *)
Lemma stat_untouched_at_depth (entry : Entry) (h : Heap) :
  requireDepth h <> 0 ->
  heap_of (tryCompileCached entry h) = heap_of (tryCompile_of entry h entry h).
Proof.
  unfold tryCompile_of, cached_of, cache_key.
  intros H0. unfold tryCompileCached. run.
  rewrite bool_decide_eq_false_2 by done. simpl.
  destruct (debug (options (package entry))); simpl;
  match goal with
  | |- context [(if ?b then tryCompileESM else tryCompileCJS) entry ?h0] =>
      destruct ((if b then tryCompileESM else tryCompileCJS) entry h0)
        as [[[v'|e] h1] l]
  end; simpl; try done.
  by destruct (rethrown_unchanged e).
Qed.

End PipelineFacts.

(** ** The pipeline on the sample host *)

Lemma sample_mod_compile_wrap (entry : Entry) (content file : string) (h0 : Heap) :
  Module_wrap (sample_mod_compile entry content file h0).2 = Module_wrap h0 \/
  Module_wrap (sample_mod_compile entry content file h0).2 = wrap.
Proof.
  unfold sample_mod_compile.
  destruct (Module_wrap h0) eqn:E; case_bool_decide; simpl; auto.
Qed.

Example sample_extname_mjs :
  sample_extname "/app/a.b/main.mjs" = ".mjs" /\
  sample_extname "/app/.mjs" = "" /\
  sample_extname "/app.d/file" = "" /\
  sample_extname "/app/lib.js/" = ".js" /\
  sample_extname "/app/index." = "." /\
  sample_extname "/app/.index.md" = ".md" /\
  sample_extname "/app/.." = "".
Proof. vm_compute. done. Qed.

Example run_cjs_unchanged :
  @tryCompileCJS sample_host (sample_entry await_options "a.js")
    (sample_heap wrap 0 (cache_with "a.js" (Compiled script_unchanged))) =
  (Return (HostValue 1),
   sample_heap wrap 0 (cache_with "a.js" (Compiled script_unchanged)),
   [CallModCompile 7 "exports.a=1;return" "/app/a.js"]).
Proof. vm_compute. reflexivity. Qed.

(** C1, a counterexample to the claim as stated.  [Module.wrap] holds a
    function of somebody else; an unchanged script entry of a package
    with await installs [moduleWrapAsyncCJS], the host calls it, and the
    call ends with the default [wrap], not with the function it found. *)
Lemma foreign_wrapper_not_restored :
  Module_wrap
    (heap_of (@tryCompileCJS sample_host (sample_entry await_options "a.js")
       (sample_heap (foreignWrap 7) 0 (cache_with "a.js" (Compiled script_unchanged)))))
  <> Module_wrap
       (sample_heap (foreignWrap 7) 0 (cache_with "a.js" (Compiled script_unchanged))).
Proof. vm_compute. discriminate. Qed.

(** On the sample host: a function of somebody else in [Module.wrap]
    is still there after a changed script, for which nothing is
    installed; and an import/export module without compatibility
    variables, for which the override is installed, ends with [wrap]. *)
Lemma wrapper_restored_to_default_witness :
  Module_wrap
    (heap_of (@tryCompileCJS sample_host (sample_entry await_options "a.js")
       (sample_heap (foreignWrap 7) 0 (cache_with "a.js" (Compiled script_changed))))) =
  foreignWrap 7 /\
  Module_wrap
    (heap_of (@tryCompileESM sample_host (sample_entry await_options "m.mjs")
       (sample_heap (foreignWrap 7) 0 (cache_with "m.mjs" (Compiled (module_record None)))))) =
  wrap.
Proof.
  split.
  - destruct (proj2 (@wrapper_restored_to_default sample_host
        (sample_entry await_options "a.js")
        (sample_heap (foreignWrap 7) 0 (cache_with "a.js" (Compiled script_changed))))
        (Compiled script_changed) eq_refl)
      as [(content & h0 & _ & Hw0 & _ & Hkept & _) _].
    apply Hkept. simpl in Hw0. simpl.
    unfold sample_mod_compile. rewrite Hw0. by case_bool_decide.
  - destruct (proj2 (@wrapper_restored_to_default sample_host
        (sample_entry await_options "m.mjs")
        (sample_heap (foreignWrap 7) 0 (cache_with "m.mjs" (Compiled (module_record None)))))
        (Compiled (module_record None)) eq_refl)
      as [_ (content & h0 & _ & Hw0 & _ & _ & Hreset)].
    apply Hreset. simpl in Hw0. simpl. by rewrite Hw0.
Defined.

(** The scenario of the specification: await enabled, import/export
    dialect, no named export; then one named export. *)
Example useAsyncWrapper_no_export :
  @useAsyncWrapper sample_host (sample_entry await_options "m.mjs")
    (sample_heap wrap 0 (cache_with "m.mjs" (Compiled (module_record (Some ∅))))) = true.
Proof. vm_compute. reflexivity. Qed.

Example useAsyncWrapper_one_export :
  @useAsyncWrapper sample_host (sample_entry await_options "m.mjs")
    (sample_heap wrap 0
       (cache_with "m.mjs" (Compiled (module_record (Some {[ "x" := 1 ]}))))) = false.
Proof. vm_compute. reflexivity. Qed.

(** Two files with the alternate extension in packages of one mode. *)
Lemma dialect_resolution_witness :
  @dialect sample_host debug_options "/lib/b.mjs" =
  @dialect sample_host await_options "/app/a.mjs" /\
  @dialect sample_host await_options "/app/a.mjs" = (MODULE, MODULE).
Proof.
  destruct (@dialect_resolution sample_host (sample_entry await_options "a.mjs") "/app/a.mjs")
    as (Hspec & Hdet & _).
  split.
  - apply Hdet; reflexivity.
  - exact Hspec.
Defined.


(** C5, a counterexample to the claim as stated.  A script entry whose
    cached compilation records a top-level return and is not marked
    changed: the host receives the cached code, which does not begin
    with ["return this.r(("]. *)
Lemma unchanged_script_has_no_return_prefix :
  topLevelReturn script_unchanged = true /\
  handed (log_of (@tryCompileCJS sample_host (sample_entry await_options "a.js")
    (sample_heap wrap 0 (cache_with "a.js" (Compiled script_unchanged)))))
  = ["exports.a=1;return"] /\
  starts_with "return this.r((" "exports.a=1;return" = false /\
  starts_with "return " "exports.a=1;return" = false.
Proof. vm_compute. done. Qed.

(** A changed script with a top-level return, through both builders. *)
Lemma topLevelReturn_prefix_witness :
  (exists content,
     handed (log_of (@tryCompileESM sample_host (sample_entry await_options "a.js")
       (sample_heap wrap 0 (cache_with "a.js" (Compiled script_changed))))) = [content] /\
     starts_with "return this.r((" content = true) /\
  (exists content,
     handed (log_of (@tryCompileCJS sample_host (sample_entry await_options "a.js")
       (sample_heap wrap 0 (cache_with "a.js" (Compiled script_changed))))) = [content] /\
     starts_with "return this.r((" content = true).
Proof.
  destruct (@topLevelReturn_prefix sample_host
    (sample_entry await_options "a.js")
    (sample_heap wrap 0 (cache_with "a.js" (Compiled script_changed)))
    script_changed eq_refl) as [Hesm Hcjs].
  split; [exact Hesm | exact (Hcjs eq_refl)].
Defined.

(** An unchanged script goes to the host as cached. *)
Lemma tryCompileCJS_unchanged_verbatim_witness :
  log_of (@tryCompileCJS sample_host (sample_entry await_options "a.js")
    (sample_heap wrap 0 (cache_with "a.js" (Compiled script_unchanged)))) =
  [CallModCompile 7 "exports.a=1;return" "/app/a.js"].
Proof.
  exact (proj1 (proj2 (@tryCompileCJS_unchanged_verbatim sample_host
    (sample_entry await_options "a.js")
    (sample_heap wrap 0 (cache_with "a.js" (Compiled script_unchanged)))
    script_unchanged eq_refl eq_refl))).
Defined.


(** The three handlers on the sample host. *)
Lemma masking_applied_once_witness :
  (* the transformer throws a value that is no error object: rethrown *)
  (outcome_of (@tryCompileCode sample_host 0
     (sample_entry await_options "a.js") "throw 42" (SCRIPT, SCRIPT)
     (sample_heap wrap 0 ∅)) = Throw sample_nonerror /\
   mask_calls (log_of (@tryCompileCode sample_host 0
     (sample_entry await_options "a.js") "throw 42" (SCRIPT, SCRIPT)
     (sample_heap wrap 0 ∅))) = 0) /\
  (* the transformer throws an error object: masked once *)
  mask_calls (log_of (@tryCompileCode sample_host 0
     (sample_entry await_options "a.js") "syntax error" (SCRIPT, SCRIPT)
     (sample_heap wrap 0 ∅))) = 1 /\
  (* the validator throws an error object: masked once *)
  mask_calls (log_of (@tryValidateESM sample_host 0
     (sample_entry await_options "bad.mjs") (sample_heap wrap 0 ∅))) = 1 /\
  (* the module throws an error object: masked once *)
  outcome_of (@tryCompileCached sample_host (sample_entry await_options "throws.js")
     (sample_heap wrap 0 (cache_with "throws.js" (Compiled script_changed))))
  = Throw (mkThrown "Error" "masked:Error: boom" None).
Proof.
  split; [| split; [| split]].
  - destruct (proj1 (@masking_applied_once sample_host 0
      (sample_entry await_options "a.js") (sample_heap wrap 0 ∅) (sample_heap wrap 0 ∅)
      sample_nonerror eq_refl) "throw 42" (SCRIPT, SCRIPT) eq_refl) as (Ho & Hm & _).
    split; [exact Ho | exact Hm].
  - exact (proj1 (proj2 (proj1 (@masking_applied_once sample_host 0
      (sample_entry await_options "a.js") (sample_heap wrap 0 ∅) (sample_heap wrap 0 ∅)
      (mkThrown "SyntaxError" "SyntaxError: unexpected" (Some SCRIPT)) eq_refl)
      "syntax error" (SCRIPT, SCRIPT) eq_refl))).
  - exact (proj1 (proj2 (proj1 (proj2 (@masking_applied_once sample_host 0
      (sample_entry await_options "bad.mjs") (sample_heap wrap 0 ∅) (sample_heap wrap 0 ∅)
      sample_error eq_refl)) eq_refl))).
  - pose proof (proj2 (proj2 (@masking_applied_once sample_host 0
      (sample_entry await_options "throws.js")
      (sample_heap wrap 0 (cache_with "throws.js" (Compiled script_changed)))
      (heap_of (@tryCompileCJS sample_host (sample_entry await_options "throws.js")
         (set_stat (Some ∅)
            (sample_heap wrap 0 (cache_with "throws.js" (Compiled script_changed))))))
      sample_error eq_refl))
      (log_of (@tryCompileCJS sample_host (sample_entry await_options "throws.js")
         (set_stat (Some ∅)
            (sample_heap wrap 0 (cache_with "throws.js" (Compiled script_changed))))))) as H.
    exact (proj1 (H ltac:(vm_compute; reflexivity))).
Defined.

(** C8, the input on which the code departs from the claim.  Debug
    mode, depth zero, and a module that throws: the statistics slot,
    installed at the start of [tryCompileCached], is still installed
    when the call has ended. *)
Lemma debug_throw_leaves_stat_installed :
  requireDepth (sample_heap wrap 0 (cache_with "throws.js" (Compiled script_changed))) = 0 /\
  outcome_of (@tryCompileCached sample_host (sample_entry debug_options "throws.js")
    (sample_heap wrap 0 (cache_with "throws.js" (Compiled script_changed))))
  = Throw sample_error /\
  stat (heap_of (@tryCompileCached sample_host (sample_entry debug_options "throws.js")
    (sample_heap wrap 0 (cache_with "throws.js" (Compiled script_changed)))))
  = Some ∅.
Proof. vm_compute. done. Qed.

(** The same module outside debug mode: the slot is null again. *)
Example nondebug_throw_resets_stat :
  stat (heap_of (@tryCompileCached sample_host (sample_entry await_options "throws.js")
    (sample_heap wrap 0 (cache_with "throws.js" (Compiled script_changed)))))
  = None.
Proof. vm_compute. reflexivity. Qed.

(** ** Facts about the function mask *)

Section MaskFacts.

Lemma grows_refl (R : Realm) : grows R R.
Proof. by split. Qed.

Lemma grows_trans (R1 R2 R3 : Realm) : grows R1 R2 -> grows R2 R3 -> grows R1 R3.
Proof.
  intros [Hm1 Ho1] [Hm2 Ho2]. split; [congruence |].
  intros k Hk. by apply Ho2, Ho1.
Qed.

Lemma grows_alloc (r : nat) (o : Obj) (R : Realm) : grows R (alloc r o R).
Proof.
  split; [done |]. intros k Hk. simpl.
  apply lookup_insert_is_Some'. by right.
Qed.

Lemma grows_update (r : nat) (f : Obj -> Obj) (R : Realm) : grows R (update r f R).
Proof.
  split; [done |]. intros k Hk. simpl.
  apply lookup_insert_is_Some'. by right.
Qed.

Lemma grows_setPrototypeOf (r : nat) (p : option nat) (R : Realm) :
  grows R (setPrototypeOf r p R).
Proof.
  unfold setPrototypeOf. case_bool_decide; [apply grows_refl |].
  destruct (can_setPrototypeOf r p R); [apply grows_update | apply grows_refl].
Qed.

Lemma grows_defineProperty (r : nat) (name : string) (d : Desc) (R : Realm) :
  grows R (defineProperty r name d R).
Proof.
  unfold defineProperty.
  destruct (can_define _ name d); [apply grows_update | apply grows_refl].
Qed.

Lemma grows_copyProperty (t s : nat) (name : string) (R : Realm) :
  grows R (copyProperty t s name R).
Proof.
  unfold copyProperty. destruct (getOwn R s name);
    [apply grows_defineProperty | apply grows_refl].
Qed.

Lemma grows_assign (r : nat) (name : string) (v : JsVal) (R R' : Realm) :
  assign r name v R = Some R' -> grows R R'.
Proof.
  unfold assign. destruct (writable_up _ R r name); [| done].
  destruct (own _ !! name); [| destruct (extensible _)];
    intros [= <-]; apply grows_update.
Qed.

(** Reading a property of something that is no object of the realm
    gives [undefined]. *)
Lemma get_live (R : Realm) (r t : nat) (name : string) :
  get R r name = VRef t -> is_Some (objects R !! r).
Proof.
  unfold get. cbn [get_fuel]. unfold obj.
  destruct (objects R !! r); [eauto |]. simpl. by rewrite lookup_empty.
Qed.

(** Installing the mask either throws and leaves the memo table alone,
    or stores one record under [func] and under [proxy]. *)
Lemma maskFunction_install_cases (func source proxy toString : nat) (R : Realm) :
  (exists e R', maskFunction_install func source proxy toString R = (Throw e, R') /\
                (e = reflectTypeError \/ e = assignTypeError) /\
                grows R R') \/
  (exists r R1, maskFunction_install func source proxy toString R =
                  (Return (VRef proxy), memoize func proxy r R1) /\
                rec_proxy r = proxy /\
                rec_source r = match utilMaskFunction R !! source with
                               | Some found => rec_source found
                               | None => source
                               end /\
                rec_toString r = toString /\
                grows R R1).
Proof.
  unfold maskFunction_install.
  set (src := match utilMaskFunction R !! source with
              | Some found => rec_source found
              | None => source
              end).
  set (R1 := copyProperty func src "name" R).
  set (R2 := setPrototypeOf func (getPrototypeOf R1 src) R1).
  assert (grows R R2) as G2.
  { eapply grows_trans; [apply grows_copyProperty | apply grows_setPrototypeOf]. }
  assert (forall R3, grows R2 R3 ->
    exists r R1',
      (Return (VRef proxy), memoize func proxy (mkMaskRecord proxy src toString) R3) =
      (Return (VRef proxy), memoize func proxy r R1') /\
      rec_proxy r = proxy /\ rec_source r = src /\ rec_toString r = toString /\
      grows R R1') as Hfin.
  { intros R3 G3. eexists _, _. do 4 (split; [done |]). by eapply grows_trans. }
  destruct (has R func "prototype") eqn:Hp;
    destruct (if has R src "prototype" then get R src "prototype" else VUndefined)
      as [| | n | sp] eqn:Hsp.
  all: try (destruct (getOwn R2 src "prototype") as [d|];
            [right; apply Hfin; apply grows_defineProperty |];
            first [ destruct (assign func "prototype" _ R2) as [R3|] eqn:Ha;
                    [right; apply Hfin; by apply grows_assign in Ha
                    |left; eexists _, _; split; [done |]; split; [by right | done]]
                  | right; apply Hfin; apply grows_refl ]).
  destruct (get R2 func "prototype") as [| | n | fp];
    try (left; eexists _, _; split; [done |]; split; [by left | done]).
  right. apply Hfin. apply grows_setPrototypeOf.
Qed.

(** The four ways a call of [maskFunction] ends. *)
Lemma maskFunction_cases (func source : JsVal) (R : Realm) :
  (is_function R source = false /\ maskFunction func source R = (Return func, R)) \/
  (is_function R source = true /\
   exists f r, func = VRef f /\ utilMaskFunction R !! f = Some r /\
               maskFunction func source R = (Return (VRef (rec_proxy r)), R)) \/
  (is_function R source = true /\
   exists e R', maskFunction func source R = (Throw e, R') /\
                (e = proxyTypeError \/ e = reflectTypeError \/ e = assignTypeError) /\
                grows R R') \/
  (is_function R source = true /\
   exists f r R1, func = VRef f /\ utilMaskFunction R !! f = None /\
                  rec_proxy r = fresh (dom (objects R)) /\
                  maskFunction func source R =
                    (Return (VRef (rec_proxy r)), memoize f (rec_proxy r) r R1) /\
                  grows R R1 /\
                  is_Some (objects R1 !! f) /\
                  is_Some (objects R1 !! rec_proxy r)).
Proof.
  unfold maskFunction, is_function.
  destruct (callable_ref R source) as [s|]; [| by left].
  right.
  destruct func as [| | n | f].
  1-3: right; left; split; [done |]; eexists _, _; split; [done |];
       split; [by left | apply grows_refl].
  destruct (utilMaskFunction R !! f) as [r|] eqn:Hf.
  { left. split; [done |]. by exists f, r. }
  right.
  set (proxy := fresh (dom (objects R))).
  set (toString := fresh ({[proxy]} ∪ dom (objects R))).
  set (Ra := alloc proxy _ R).
  assert (grows R Ra) as Ga by apply grows_alloc.
  assert (is_Some (objects Ra !! proxy)) as La.
  { subst Ra. simpl. rewrite lookup_insert_eq. eauto. }
  destruct (get Ra f "toString") as [| | n | t] eqn:Hget;
    try (left; split; [done |]; eexists _, _; split; [done |]; split; [by left | done]).
  apply get_live in Hget.
  set (Rb := alloc toString _ Ra).
  assert (grows Ra Rb) as Gb by apply grows_alloc.
  destruct (maskFunction_install_cases f s proxy toString Rb)
    as [(e & R' & -> & He & G) | (r & R1 & -> & Hr & _ & _ & G)].
  - left. split; [done |]. eexists _, _. split; [done |]. split.
    + destruct He; [right; by left | right; by right].
    + eapply grows_trans; [exact Ga |]. by eapply grows_trans.
  - right. split; [done |]. exists f, r, R1. rewrite Hr.
    do 4 (split; [done |]). split; [| split].
    + apply (grows_trans _ Ra); [done |]. by apply (grows_trans _ Rb).
    + apply G. by apply Gb.
    + apply G. by apply Gb.
Qed.


Lemma fresh_not_live (R : Realm) : objects R !! fresh (dom (objects R)) = None.
Proof. apply not_elem_of_dom, is_fresh. Qed.

(** A call keeps the table well formed and keeps every record in it. *)
Lemma maskFunction_wf (func source : JsVal) (R : Realm) :
  memo_wf R ->
  memo_wf (maskFunction func source R).2 /\
  forall f0 r0, utilMaskFunction R !! f0 = Some r0 ->
                utilMaskFunction (maskFunction func source R).2 !! f0 = Some r0.
Proof.
  intros [Hpair Hlive].
  destruct (maskFunction_cases func source R)
    as [[_ ->] | [(_ & f & r & _ & _ & ->) | [(_ & e & R' & -> & _ & Hm & Ho)
        | (_ & f & r & R1 & _ & Hf & Hr & -> & [Hm Ho] & Lf & Lp)]]];
    unfold memo_wf; simpl.
  - by split.
  - by split.
  - rewrite Hm. split; [| done]. split; [done |].
    intros k Hk. by apply Ho, Hlive.
  - rewrite Hm.
    assert (forall k, is_Some (utilMaskFunction R !! k) -> rec_proxy r <> k) as Hnp.
    { intros k Hk <-. apply Hlive in Hk. rewrite Hr, fresh_not_live in Hk.
      by destruct Hk. }
    assert (forall k, is_Some (utilMaskFunction R !! k) -> f <> k) as Hnf.
    { intros k Hk <-. rewrite Hf in Hk. by destruct Hk. }
    split; [split |].
    + intros k r'. rewrite !lookup_insert.
      case_decide as Hkp; [intros [= <-]; by rewrite decide_True |].
      case_decide as Hkf.
      * intros [= <-]. by rewrite decide_True.
      * intros Hk. pose proof (Hpair k r' Hk) as Hk'.
        rewrite decide_False by (apply Hnp; eauto).
        by rewrite decide_False by (apply Hnf; eauto).
    + intros k. rewrite !lookup_insert.
      case_decide as Hkp; [by subst |].
      case_decide as Hkf; [by subst |].
      intros Hk. by apply Ho, Hlive.
    + intros f0 r0 H0.
      rewrite lookup_insert_ne by (apply Hnp; eauto).
      by rewrite lookup_insert_ne by (apply Hnf; eauto).
Qed.

(** Any step of the program keeps the table well formed and keeps every
    record in it. *)
Lemma step_wf (R R' : Realm) :
  step R R' ->
  memo_wf R ->
  memo_wf R' /\
  forall f0 r0, utilMaskFunction R !! f0 = Some r0 ->
                utilMaskFunction R' !! f0 = Some r0.
Proof.
  intros [(func & source & <-) | [Hm Ho]] Hwf; [by apply maskFunction_wf |].
  destruct Hwf as [Hpair Hlive]. unfold memo_wf. rewrite Hm.
  split; [split |]; try done.
  intros k Hk. by apply Ho, Hlive.
Qed.

Lemma later_keeps (f0 : nat) (r0 : MaskRecord) (R R' : Realm) :
  later R R' ->
  memo_wf R ->
  utilMaskFunction R !! f0 = Some r0 ->
  memo_wf R' /\ utilMaskFunction R' !! f0 = Some r0.
Proof.
  induction 1 as [R | R1 R2 R3 Hstep _ IH]; [done |].
  intros Hwf H0. destruct (step_wf R1 R2 Hstep Hwf) as [Hwf' Hk].
  apply IH; [done | by apply Hk].
Qed.

(** The table starts empty and only [maskFunction] writes to it, so it
    is well formed in every realm the program reaches. *)
Lemma memo_wf_reachable (R0 R : Realm) :
  utilMaskFunction R0 = ∅ -> later R0 R -> memo_wf R.
Proof.
  intros Hempty Hlater.
  assert (memo_wf R0) as Hwf.
  { split.
    - intros k r H. by rewrite Hempty, lookup_empty in H.
    - intros k [r H]. by rewrite Hempty, lookup_empty in H. }
  clear Hempty. induction Hlater as [R | R1 R2 R3 Hstep _ IH]; [done |].
  apply IH. by apply (step_wf R1 R2).
Qed.

(** A function with a record is answered from the table. *)
Lemma maskFunction_hit (f : nat) (r : MaskRecord) (source : JsVal) (R : Realm) :
  utilMaskFunction R !! f = Some r ->
  is_function R source = true ->
  maskFunction (VRef f) source R = (Return (VRef (rec_proxy r)), R).
Proof.
  unfold is_function, maskFunction. intros Hf.
  destruct (callable_ref R source); [| done]. by rewrite Hf.
Qed.

(** C9.  When the source is not callable [maskFunction] returns [func]
    and changes nothing.  When it is, and the call returns, the result
    is a proxy whose record is in the memo table under [func] and under
    the proxy; and whatever the program does next, calls of
    [maskFunction] and changes to the objects by any other code, the
    record is still under both keys, and masking [func] with any
    callable source returns that same proxy and changes nothing. *)
Theorem maskFunction_memoized (func source : JsVal) (R : Realm) :
  memo_wf R ->
  (is_function R source = false ->
   maskFunction func source R = (Return func, R)) /\
  (is_function R source = true ->
   forall result R', maskFunction func source R = (Return result, R') ->
   exists f p r,
     func = VRef f /\ result = VRef p /\ rec_proxy r = p /\
     utilMaskFunction R' !! f = Some r /\
     utilMaskFunction R' !! p = Some r /\
     forall R'' source',
       later R' R'' ->
       is_function R'' source' = true ->
       maskFunction func source' R'' = (Return result, R'') /\
       utilMaskFunction R'' !! f = Some r /\
       utilMaskFunction R'' !! p = Some r).
Proof.
  intros Hwf. split.
  - intros Hs. destruct (maskFunction_cases func source R)
      as [[_ H] | [[H _] | [[H _] | [H _]]]]; congruence.
  - intros Hs result R' Hcall.
    assert (memo_wf R') as Hwf'.
    { change R' with (Return (A:=JsVal) result, R').2. rewrite <- Hcall.
      by apply maskFunction_wf. }
    assert (exists f r, func = VRef f /\ result = VRef (rec_proxy r) /\
              utilMaskFunction R' !! f = Some r /\
              utilMaskFunction R' !! rec_proxy r = Some r) as (f & r & -> & -> & Hf & Hp).
    { destruct (maskFunction_cases func source R)
        as [[H _] | [(_ & f & r & -> & Hf & H) | [(_ & e & R0 & H & _)
            | (_ & f & r & R1 & -> & Hf & Hr & H & _)]]];
        [congruence | rewrite H in Hcall | congruence | rewrite H in Hcall].
      - injection Hcall as <- <-. exists f, r. do 3 (split; [done |]).
        by apply (proj1 Hwf f).
      - injection Hcall as <- <-. exists f, r. do 2 (split; [done |]). simpl.
        split; [| apply lookup_insert_eq].
        rewrite lookup_insert. case_decide; [done |]. apply lookup_insert_eq. }
    exists f, (rec_proxy r), r. do 5 (split; [done |]).
    intros R'' source' Hlater Hs'.
    split; [| split].
    + apply maskFunction_hit; [| done].
      by apply (later_keeps f r R' R'').
    + by apply (later_keeps f r R' R'').
    + by apply (later_keeps (rec_proxy r) r R' R'').
Qed.

End MaskFacts.

(** ** The function mask on the sample realm *)

Lemma sample_realm_wf : memo_wf sample_realm.
Proof.
  split.
  - intros k r H. simpl in H. by rewrite lookup_empty in H.
  - intros k [r H]. simpl in H. by rewrite lookup_empty in H.
Qed.

Example mask_sample :
  (maskFunction (VRef 10) (VRef 20) sample_realm).1 = Return (VRef 22) /\
  utilMaskFunction (maskFunction (VRef 10) (VRef 20) sample_realm).2 =
    {[ 10 := mkMaskRecord 22 20 23; 22 := mkMaskRecord 22 20 23 ]}.
Proof. vm_compute. done. Qed.

(** The name and the prototype chain of [func] are those of [source]
    after the call. *)
Example mask_sample_identity :
  getOwn (maskFunction (VRef 10) (VRef 20) sample_realm).2 10 "name" =
    Some (name_desc (VPrimitive 1)) /\
  getPrototypeOf (maskFunction (VRef 10) (VRef 20) sample_realm).2 10 = Some 1.
Proof. vm_compute. done. Qed.

(** Masking a class [A] with the class [B extends A]: the prototype of
    [B] is [A], and the prototype of [B.prototype] is [A.prototype], so
    both changes would close a cycle and are refused; the call returns
    the mask, and the prototypes of [A] and of [A.prototype] are as
    before. *)
Example mask_class_cycle :
  (maskFunction (VRef 30) (VRef 40) class_realm).1 = Return (VRef 51) /\
  can_setPrototypeOf 30 (Some 30) class_realm = false /\
  getPrototypeOf (maskFunction (VRef 30) (VRef 40) class_realm).2 30 = Some 1 /\
  getPrototypeOf (maskFunction (VRef 30) (VRef 40) class_realm).2 31 = None /\
  utilMaskFunction (maskFunction (VRef 30) (VRef 40) class_realm).2 !! 30 =
    Some (mkMaskRecord 51 40 52).
Proof. vm_compute. done. Qed.

(** Masking a class with an arrow function: the source has no
    [prototype], the [prototype] of a class is read-only, and the
    assignment of line 184 throws; no record is stored. *)
Example mask_class_readonly :
  (maskFunction (VRef 30) (VRef 50) class_realm).1 = Throw assignTypeError /\
  utilMaskFunction (maskFunction (VRef 30) (VRef 50) class_realm).2 = ∅.
Proof. vm_compute. done. Qed.

(** A function masked with an arrow function loses its [prototype]
    value: the property is writable and is assigned [undefined]. *)
Example mask_function_with_arrow :
  (maskFunction (VRef 10) (VRef 50) class_realm).1 = Return (VRef 51) /\
  getOwn (maskFunction (VRef 10) (VRef 50) class_realm).2 10 "prototype" =
    Some (prototype_desc VUndefined).
Proof. vm_compute. done. Qed.

(** A source that is not callable; and, after a first mask of [func]
    and after other code has given [func] a property, a second mask of
    [func] with another source, which returns the proxy of the first. *)
Lemma maskFunction_memoized_witness :
  maskFunction (VRef 10) (VPrimitive 5) sample_realm = (Return (VRef 10), sample_realm) /\
  let R' := (maskFunction (VRef 10) (VRef 20) sample_realm).2 in
  let R'' := update 10 (with_own "tag" (method_desc (VPrimitive 9))) R' in
  maskFunction (VRef 10) (VRef 2) R'' = (Return (VRef 22), R'').
Proof.
  split.
  - exact (proj1 (maskFunction_memoized (VRef 10) (VPrimitive 5) sample_realm
                    sample_realm_wf) eq_refl).
  - intros R' R''.
    assert (maskFunction (VRef 10) (VRef 20) sample_realm = (Return (VRef 22), R')) as Hcall
      by (vm_compute; reflexivity).
    destruct (proj2 (maskFunction_memoized (VRef 10) (VRef 20) sample_realm
                       sample_realm_wf) eq_refl (VRef 22) R' Hcall)
      as (f & p & r & _ & _ & _ & _ & _ & Hlater).
    apply Hlater; [| vm_compute; reflexivity].
    apply rtc_once. right. apply grows_update.
Defined.

(** ** Further facts about the pipeline *)

Ltac log_cases Hin :=
  repeat (apply elem_of_cons in Hin as [-> | Hin]; [done |]);
  try (by apply elem_of_nil in Hin).

Section CacheFacts.
Context `{X : Host}.

(** How the cache stage ends: with the record that the cache now holds
    for the entry, or with what the transformer threw from a heap in
    which the entry had no record, nothing being stored afterwards. *)
Lemma compile_cached_cases (caller : nat) (entry : Entry) (content filename : string) (h : Heap) :
  let r := compile_cached caller entry content filename h in
  (exists c, outcome_of r = Return c /\
             cached_of entry (heap_of r) = Some (Compiled c)) \/
  (exists e h0 l,
     outcome_of r = Throw e /\
     cache_compile h0 !! cache_key entry = None /\
     tryCompileCode caller entry content
       (dialect (options (package entry)) filename) h0 = (Throw e, heap_of r, l)).
Proof.
  intros r. subst r. unfold compile_cached, cached_of, cache_key. run.
  destruct (cache_compile h !! (pid (package entry), cacheName entry))
    as [[|c]|] eqn:E; simpl.
  - destruct (Compiler_from entry h) as [c|]; simpl.
    + left. eexists. split; [done |]. simpl. apply lookup_insert_eq.
    + match goal with
      | |- context [tryCompileCode ?a ?b ?c ?d ?e] =>
          destruct (tryCompileCode a b c d e) as [[[r|t] h1] l] eqn:T
      end; simpl.
      * left. eexists. split; [done |]. simpl. apply lookup_insert_eq.
      * right. eexists _, _, _. split; [done |]. split; [| exact T].
        simpl. apply lookup_delete_eq.
  - left. by exists c.
  - destruct (tryCompileCode _ _ _ _ h) as [[[r|t] h1] l] eqn:T; simpl.
    + left. eexists. split; [done |]. simpl. apply lookup_insert_eq.
    + right. eexists _, _, _. split; [done |]. split; [exact E | exact T].
Qed.

(** A cache hit: the record is returned, nothing is called, nothing
    changes. *)
Lemma compile_cached_hit (caller : nat) (entry : Entry) (content filename : string) (h : Heap) (c : Cached) :
  cache_compile h !! cache_key entry = Some (Compiled c) ->
  compile_cached caller entry content filename h = (Return c, h, []).
Proof.
  unfold cache_key. intros E. unfold compile_cached. run. by rewrite E.
Qed.

(** X1.  Compiling is idempotent on the cache: once [compile]'s cache
    stage has returned a record for an entry, running it again from the
    heap it left, for the same entry or any entry of the package with
    the same cache name and with any content, returns that record,
    calls no collaborator and leaves the heap as it is. *)
Theorem compile_cached_idempotent (caller caller' : nat) (entry entry' : Entry) (content content' filename filename' : string) (h : Heap) (c : Cached) :
  outcome_of (compile_cached caller entry content filename h) = Return c ->
  cache_key entry' = cache_key entry ->
  let h1 := heap_of (compile_cached caller entry content filename h) in
  compile_cached caller' entry' content' filename' h1 = (Return c, h1, []).
Proof.
  intros Ho Hk h1. apply compile_cached_hit. rewrite Hk.
  destruct (compile_cached_cases caller entry content filename h)
    as [(c' & Ho' & Hc) | (e & h0 & l & Ho' & _)]; [| congruence].
  rewrite Ho in Ho'. by injection Ho' as ->.
Qed.

(** X2.  When the cache stage throws, the value was thrown by
    [tryCompileCode] running from a heap in which the entry had no
    record, and the heap is left as the transformer's call left it:
    nothing is stored for the entry after a failed transformation. *)
Theorem compile_cached_failure (caller : nat) (entry : Entry) (content filename : string) (h : Heap) (e : Thrown) :
  outcome_of (compile_cached caller entry content filename h) = Throw e ->
  exists h0 l,
    cache_compile h0 !! cache_key entry = None /\
    tryCompileCode caller entry content
      (dialect (options (package entry)) filename) h0 =
      (Throw e, heap_of (compile_cached caller entry content filename h), l) /\
    heap_of (compile_cached caller entry content filename h) =
      (Compiler_compile entry content
         (dialect (options (package entry)) filename) h0).2.
Proof.
  intros Ho.
  destruct (compile_cached_cases caller entry content filename h)
    as [(c' & Ho' & _) | (e' & h0 & l & Ho' & Hk & T)]; [congruence |].
  rewrite Ho in Ho'. injection Ho' as <-.
  exists h0, l. split; [done |]. split; [done |].
  revert T. unfold tryCompileCode.
  destruct (debug (options (package entry))); run;
    destruct (Compiler_compile entry content _ h0) as [[r|t] h2]; simpl;
    try destruct (rethrown_unchanged t); simpl; congruence.
Qed.

Lemma for_each_warn_run (ws : list Warning) (filename : string) (h : Heap) :
  for_each ws (fun w => tell (CallWarn (w_code w) filename (w_args w))) h =
  (Return tt, h, (fun w => CallWarn (w_code w) filename (w_args w)) <$> ws).
Proof.
  induction ws as [|w ws IH]; simpl; [done |].
  unfold bind. unfold tell at 1. by rewrite IH.
Qed.

Lemma triple_eta {A} (r : Outcome A * Heap * list Call) :
  (let '(o, h, l) := r in (o, h, l)) = r.
Proof. by destruct r as [[o h] l]. Qed.

(** The execution phase: the entry is marked and the cached compilation
    runs; nothing else happens. *)
Lemma compile_run_execution (caller : nat) (entry : Entry) (filename : string) (fallback : option (Foreign Value)) (cached : Cached) (h : Heap) :
  parsing h = false ->
  compile_run caller entry filename fallback cached h =
  tryCompileCached entry (set_entry_state entry EXECUTION_STARTED h).
Proof.
  intros Hp. unfold compile_run.
  unfold bind at 1. unfold gets at 1. rewrite Hp, andb_false_r.
  unfold bind at 1. unfold ret at 1.
  unfold bind at 1. unfold gets at 1. rewrite Hp.
  unfold bind at 1. unfold modify at 1. simpl.
  by destruct (tryCompileCached entry _) as [[o h1] l].
Qed.

(** The parse phase: the warnings, then the fallback, the validation, or
    nothing. *)
Lemma compile_run_parsing (caller : nat) (entry : Entry) (filename : string) (fallback : option (Foreign Value)) (cached : Cached) (h : Heap) :
  parsing h = true ->
  let warned :=
    if opt_warnings (options (package entry)) then warnings_of filename cached else [] in
  compile_run caller entry filename fallback cached h =
  if falls_back entry h then
    match fallback with
    | Some f => ((f h).1, (f h).2, warned ++ [CallFallback])
    | None => (Return Undefined, h, warned)
    end
  else if validates entry h then
    match tryValidateESM caller entry h with
    | (Return _, h1, l) => (Return Undefined, h1, warned ++ l)
    | (Throw e, h1, l) => (Throw e, h1, warned ++ l)
    end
  else (Return Undefined, h, warned).
Proof.
  intros Hp warned. unfold compile_run, falls_back, validates, parent_cached, warnings_of in *.
  unfold bind at 1. unfold gets at 1. rewrite Hp, andb_true_r.
  unfold bind at 1.
  assert ((if opt_warnings (options (package entry))
           then for_each (warnings cached)
                  (fun w => tell (CallWarn (w_code w) filename (w_args w)))
           else ret tt) h = (Return tt, h, warned)) as ->.
  { subst warned. destruct (opt_warnings _); [apply for_each_warn_run | done]. }
  unfold bind at 1. unfold gets at 1. rewrite Hp.
  run.
  destruct (_ && _ && _); simpl.
  - destruct fallback as [f|]; simpl.
    + destruct (f h) as [o h1]. simpl. by rewrite ?app_nil_r.
    + by rewrite ?app_nil_r.
  - destruct (_ && _); simpl.
    + destruct (tryValidateESM caller entry h) as [[[u|e] h1] l]; simpl;
        by rewrite ?app_nil_r.
    + by rewrite ?app_nil_r.
Qed.

(** What the logs of the stages are made of. *)
Lemma tryCompileCode_log_kinds (caller : nat) (entry : Entry) (content : string) (opts : SourceType * SourceType) (h : Heap) (c : Call) :
  c ∈ log_of (tryCompileCode caller entry content opts h) ->
  is_transform c || is_capture c || is_mask c = true.
Proof.
  unfold tryCompileCode.
  destruct (debug (options (package entry))); run;
    destruct (Compiler_compile entry content opts h) as [[r|e] h1]; simpl;
    try solve [intros Hin; log_cases Hin].
  destruct (rethrown_unchanged e); simpl; intros Hin; log_cases Hin.
Qed.

Lemma tryValidateESM_log_kinds (caller : nat) (entry : Entry) (h : Heap) (c : Call) :
  c ∈ log_of (tryValidateESM caller entry h) ->
  c = CallValidateESM (eid entry) \/ is_capture c || is_mask c = true.
Proof.
  unfold tryValidateESM.
  destruct (debug (options (package entry))); run;
    destruct (validateESM entry h) as [[u|e] h1]; simpl;
    try solve [intros Hin; apply list_elem_of_singleton in Hin; auto].
  destruct (rethrown_unchanged e); simpl; intros Hin;
    repeat (apply elem_of_cons in Hin as [-> | Hin]; [auto |]);
    by apply elem_of_nil in Hin.
Qed.

Lemma builder_log_kinds (entry : Entry) (h : Heap) (c : Call) :
  (c ∈ log_of (tryCompileCJS entry h) -> is_exec c = true) /\
  (c ∈ log_of (tryCompileESM entry h) -> is_exec c = true).
Proof.
  split.
  - unfold tryCompileCJS. run.
    destruct (cached_of entry h) as [s|]; simpl; [| by intros ?%elem_of_nil].
    destruct (slot_changed s); [| destruct (useAsyncWrapper entry h)]; simpl;
      destruct (mod_compile entry _ _ _); simpl; intros Hin; log_cases Hin.
  - unfold tryCompileESM. run.
    destruct (cache_compile h !! _) as [s|]; simpl; [| by intros ?%elem_of_nil].
    destruct (no_url entry h), (vars (cjs (options (package entry)))); simpl;
      destruct (mod_compile entry _ _ _); simpl; intros Hin; log_cases Hin.
Qed.

Lemma tryCompileCached_log_kinds (entry : Entry) (h : Heap) (c : Call) :
  c ∈ log_of (tryCompileCached entry h) -> is_exec c || is_mask c = true.
Proof.
  unfold tryCompileCached. run.
  destruct (bool_decide (requireDepth h = 0)), (debug (options (package entry)));
    simpl;
    match goal with
    | |- context [(if ?b then tryCompileESM else tryCompileCJS) entry ?h0] =>
      assert (c ∈ log_of ((if b then tryCompileESM else tryCompileCJS) entry h0) ->
              is_exec c = true) as Hinner
        by (destruct b; apply builder_log_kinds);
      destruct ((if b then tryCompileESM else tryCompileCJS) entry h0)
        as [[[v|e] h1] l]
    end; unfold log_of in Hinner; simpl in *; rewrite ?app_nil_r;
    try (intros Hin; by rewrite (Hinner Hin));
    destruct (rethrown_unchanged e); simpl; rewrite ?app_nil_r;
    try (intros Hin; by rewrite (Hinner Hin));
    (intros [Hin | Hin]%elem_of_app; [by rewrite (Hinner Hin) | log_cases Hin]).
Qed.

Lemma compile_cached_log_kinds (caller : nat) (entry : Entry) (content filename : string) (h : Heap) (c : Call) :
  c ∈ log_of (compile_cached caller entry content filename h) ->
  is_warn c = false /\ is_exec c = false /\ is_validate c = false /\
  c <> CallFallback.
Proof.
  assert (forall opts h0, c ∈ log_of (tryCompileCode caller entry content opts h0) ->
    is_warn c = false /\ is_exec c = false /\ is_validate c = false /\
    c <> CallFallback) as Hcode.
  { intros opts h0 Hin. apply tryCompileCode_log_kinds in Hin.
    by destruct c. }
  unfold compile_cached. run.
  destruct (cache_compile h !! _) as [[|r]|]; simpl.
  - destruct (Compiler_from entry h) as [r|]; simpl.
    + intros Hin. log_cases Hin.
    + match goal with
      | |- context [tryCompileCode ?a ?b ?c ?d ?e] =>
          pose proof (Hcode d e) as Hc;
          destruct (tryCompileCode a b c d e) as [[[r|t] h1] l]
      end; unfold log_of in Hc; simpl in *; rewrite ?app_nil_r;
        (intros [-> | Hin]%elem_of_cons; [done | by apply Hc]).
  - by intros ?%elem_of_nil.
  - match goal with
    | |- context [tryCompileCode ?a ?b ?c ?d ?e] =>
        pose proof (Hcode d e) as Hc;
        destruct (tryCompileCode a b c d e) as [[[r|t] h1] l]
    end; unfold log_of in Hc; simpl in *; rewrite ?app_nil_r; exact Hc.
Qed.

Lemma filter_none (P : Call -> bool) (l : list Call) :
  (forall c, c ∈ l -> P c = false) -> filter (fun c => P c = true) l = [].
Proof.
  induction l as [|x l IH]; intros H; [done |].
  rewrite filter_cons. rewrite decide_False.
  - apply IH. intros c Hc. apply H. by right.
  - rewrite (H x); [done | by left].
Qed.

Lemma warn_calls_warnings (filename : string) (cached : Cached) :
  warn_calls (warnings_of filename cached) = warnings_of filename cached.
Proof.
  unfold warn_calls, warnings_of.
  induction (warnings cached) as [|w ws IH]; [done |].
  rewrite fmap_cons, filter_cons. rewrite decide_True by done. by rewrite IH.
Qed.

(** X3.  [compile] reports the warnings of the cached compilation
    through [warn] exactly once each and in order, when the package
    enables warnings and the loader is parsing once the record is
    there; in every other case, and when the transformation fails, it
    calls [warn] not at all. *)
Theorem compile_warnings (caller : nat) (entry : Entry) (content filename : string) (fallback : option (Foreign Value)) (h : Heap) :
  warn_calls (log_of (compile caller entry content filename fallback h)) =
  let r := compile_cached caller entry content filename h in
  match outcome_of r with
  | Return cached =>
      if opt_warnings (options (package entry)) && parsing (heap_of r)
      then warnings_of filename cached else []
  | Throw _ => []
  end.
Proof.
  unfold compile, bind.
  pose proof (compile_cached_log_kinds caller entry content filename h) as Hc.
  destruct (compile_cached caller entry content filename h) as [[[cached|e] h1] l1];
    unfold log_of, outcome_of, heap_of in *; simpl in *.
  2: { apply filter_none. intros c Hin. by apply Hc. }
  assert (warn_calls l1 = []) as Hl1.
  { apply filter_none. intros c Hin. by apply Hc. }
  destruct (parsing h1) eqn:Hp.
  - rewrite (compile_run_parsing caller entry filename fallback cached h1 Hp).
    rewrite andb_true_r. cbv zeta.
    assert (forall l, (forall c, c ∈ l -> is_warn c = false) ->
      warn_calls (l1 ++ (if opt_warnings (options (package entry))
                         then warnings_of filename cached else []) ++ l) =
      (if opt_warnings (options (package entry))
       then warnings_of filename cached else [])) as Hw.
    { intros l Hl. unfold warn_calls in *. rewrite !filter_app, Hl1.
      rewrite (filter_none is_warn l Hl), app_nil_r. simpl.
      destruct (opt_warnings _); [apply warn_calls_warnings | done]. }
    destruct (falls_back entry h1).
    + destruct fallback as [f|]; simpl.
      * apply Hw. intros c Hin. log_cases Hin.
      * rewrite <- (app_nil_r (if opt_warnings _ then _ else _)) at 1.
        apply Hw. by intros c ?%elem_of_nil.
    + destruct (validates entry h1).
      * pose proof (tryValidateESM_log_kinds caller entry h1) as Hv.
        destruct (tryValidateESM caller entry h1) as [[[u|e] h2] l2];
          unfold log_of in Hv; simpl in *; apply Hw; intros c Hin;
          destruct (Hv c Hin) as [-> | Hk]; try done; by destruct c.
      * simpl. rewrite <- (app_nil_r (if opt_warnings _ then _ else _)) at 1.
        apply Hw. by intros c ?%elem_of_nil.
  - rewrite (compile_run_execution caller entry filename fallback cached h1 Hp).
    rewrite andb_false_r.
    pose proof (tryCompileCached_log_kinds entry
      (set_entry_state entry EXECUTION_STARTED h1)) as Ht.
    destruct (tryCompileCached entry _) as [[o h2] l2].
    unfold log_of in Ht. simpl in *.
    unfold warn_calls in *. rewrite filter_app, Hl1. simpl.
    apply filter_none. intros c Hin. apply Ht in Hin. by destruct c.
Qed.

(** X4.  In the parse phase [compile] does not execute the module: it
    calls neither [Runtime.enable] nor [mod._compile].  It calls the
    fallback only for a cached compilation that is not of the
    import/export dialect, and the validator only for one that is, on
    an entry whose state is PARSING_STARTED, and never both. *)
Theorem compile_parse_phase (caller : nat) (entry : Entry) (content filename : string) (fallback : option (Foreign Value)) (h : Heap) (cached : Cached) :
  let r := compile_cached caller entry content filename h in
  let log := log_of (compile caller entry content filename fallback h) in
  outcome_of r = Return cached ->
  parsing (heap_of r) = true ->
  (forall c, c ∈ log -> is_exec c = false) /\
  (CallFallback ∈ log -> sourceType cached <> MODULE) /\
  (forall e, CallValidateESM e ∈ log ->
     e = eid entry /\ sourceType cached = MODULE /\
     state_of entry (heap_of r) = PARSING_STARTED /\
     CallFallback ∉ log).
Proof.
  intros r log Ho Hp. subst log.
  assert (cached_of entry (heap_of r) = Some (Compiled cached)) as Hc.
  { destruct (compile_cached_cases caller entry content filename h)
      as [(c' & Ho' & Hc) | (e & h0 & l & Ho' & _)]; fold r in Ho'; [| congruence].
    rewrite Ho in Ho'. by injection Ho' as ->. }
  pose proof (compile_cached_log_kinds caller entry content filename h) as Hk.
  fold r in Hk.
  unfold compile, bind. fold r.
  destruct r as [[o h1] l1]. unfold outcome_of, heap_of, log_of in *.
  simpl in *. subst o.
  rewrite (compile_run_parsing caller entry filename fallback cached h1 Hp).
  cbv zeta. unfold falls_back, validates. rewrite Hc. simpl.
  set (warned := if opt_warnings (options (package entry))
                 then warnings_of filename cached else []).
  assert (forall c, c ∈ warned ->
    is_exec c = false /\ is_validate c = false /\ c <> CallFallback) as Hw.
  { intros c. subst warned. destruct (opt_warnings _); [| by intros ?%elem_of_nil].
    unfold warnings_of. intros (w & -> & _)%list_elem_of_fmap. done. }
  assert (forall c, c ∈ l1 ++ warned ->
    is_exec c = false /\ is_validate c = false /\ c <> CallFallback) as Hlw.
  { intros c [Hin | Hin]%elem_of_app; [| by apply Hw].
    destruct (Hk c Hin) as (_ & ? & ? & ?). done. }
  case_bool_decide as Hm; simpl.
  - (* import/export: no fallback; validation on PARSING_STARTED *)
    case_bool_decide as Hs.
    + pose proof (tryValidateESM_log_kinds caller entry h1) as Hv.
      assert (forall c l2, (forall c, c ∈ l2 ->
          c = CallValidateESM (eid entry) \/ is_capture c || is_mask c = true) ->
        c ∈ l1 ++ warned ++ l2 ->
        (c ∈ l1 ++ warned) \/ c = CallValidateESM (eid entry) \/
        is_capture c || is_mask c = true) as Hsplit.
      { intros c l2 Hl2. rewrite app_assoc.
        intros [Hin | Hin]%elem_of_app; [by left | right; by apply Hl2]. }
      destruct (tryValidateESM caller entry h1) as [[[u|e] h2] l2];
        unfold log_of in Hv; simpl in *.
      all: split; [| split].
      all: try (intros c Hin; destruct (Hsplit c l2 Hv Hin) as [H | [-> | H]];
                [by apply Hlw | done | by destruct c]).
      all: try (intros Hin; destruct (Hsplit _ l2 Hv Hin) as [H | [H | H]];
                [by destruct (Hlw _ H) as (_ & _ & ?) | done | done]).
      all: intros e0 Hin; destruct (Hsplit _ l2 Hv Hin) as [H | [[= ->] | H]];
        [by destruct (Hlw _ H) as (_ & ? & _) | | done].
      all: do 3 (split; [done |]).
      all: intros Hf; destruct (Hsplit _ l2 Hv Hf) as [H | [H | H]];
        [by destruct (Hlw _ H) as (_ & _ & ?) | done | done].
    + simpl. rewrite ?app_nil_r. split; [| split].
      * intros c Hin. by apply Hlw.
      * intros Hin. by destruct (Hlw _ Hin) as (_ & _ & ?).
      * intros e Hin. by destruct (Hlw _ Hin) as (_ & ? & _).
  - (* another dialect: no validation *)
    rewrite ?andb_false_l.
    assert (forall c l2, (forall c, c ∈ l2 -> c = CallFallback) ->
      c ∈ l1 ++ warned ++ l2 -> (c ∈ l1 ++ warned) \/ c = CallFallback) as Hsplit.
    { intros c l2 Hl2. rewrite app_assoc.
      intros [Hin | Hin]%elem_of_app; [by left | right; by apply Hl2]. }
    assert (forall l2, (forall c, c ∈ l2 -> c = CallFallback) ->
      (forall c, c ∈ l1 ++ warned ++ l2 -> is_exec c = false) /\
      (CallFallback ∈ l1 ++ warned ++ l2 -> sourceType cached <> MODULE) /\
      (forall e, CallValidateESM e ∈ l1 ++ warned ++ l2 ->
         e = eid entry /\ sourceType cached = MODULE /\
         state_of entry h1 = PARSING_STARTED /\
         CallFallback ∉ l1 ++ warned ++ l2)) as Hall.
    { intros l2 Hl2. split; [| split; [done |]].
      - intros c Hin. destruct (Hsplit c l2 Hl2 Hin) as [H | ->]; [by apply Hlw | done].
      - intros e Hin. destruct (Hsplit _ l2 Hl2 Hin) as [H | H]; [| done].
        by destruct (Hlw _ H) as (_ & ? & _). }
    destruct (_ && _).
    + destruct fallback as [f|]; simpl.
      * apply Hall. by intros c ->%list_elem_of_singleton.
      * rewrite <- (app_nil_r warned). apply Hall. by intros c ?%elem_of_nil.
    + simpl. rewrite <- (app_nil_r warned). apply Hall. by intros c ?%elem_of_nil.
Qed.

(** X5.  In the execution phase [compile] marks the entry
    EXECUTION_STARTED and then runs the cached compilation from that
    heap; the outcome and the heap are those of [tryCompileCached], and
    neither the fallback nor the validator is called. *)
Theorem compile_execution_phase (caller : nat) (entry : Entry) (content filename : string) (fallback : option (Foreign Value)) (h : Heap) (cached : Cached) :
  let r := compile_cached caller entry content filename h in
  let started := set_entry_state entry EXECUTION_STARTED (heap_of r) in
  let t := tryCompileCached entry started in
  let log := log_of (compile caller entry content filename fallback h) in
  outcome_of r = Return cached ->
  parsing (heap_of r) = false ->
  compile caller entry content filename fallback h =
    (outcome_of t, heap_of t, log_of r ++ log_of t) /\
  state_of entry started = EXECUTION_STARTED /\
  (CallFallback ∉ log) /\
  (forall e, CallValidateESM e ∉ log).
Proof.
  intros r started t log Ho Hp. subst log t started.
  pose proof (compile_cached_log_kinds caller entry content filename h) as Hk.
  unfold compile, bind. subst r.
  destruct (compile_cached caller entry content filename h) as [[o h1] l1].
  unfold outcome_of, heap_of, log_of in *. simpl in *. subst o.
  rewrite (compile_run_execution caller entry filename fallback cached h1 Hp).
  pose proof (tryCompileCached_log_kinds entry
    (set_entry_state entry EXECUTION_STARTED h1)) as Ht.
  destruct (tryCompileCached entry _) as [[o2 h2] l2].
  unfold log_of in Ht. simpl in *.
  split; [done |]. split.
  { unfold state_of. simpl. by rewrite lookup_insert_eq. }
  split.
  - intros [Hin | Hin]%elem_of_app.
    + by destruct (Hk _ Hin) as (_ & _ & _ & ?).
    + by apply Ht in Hin.
  - intros e [Hin | Hin]%elem_of_app.
    + by destruct (Hk _ Hin) as (_ & _ & ? & _).
    + by apply Ht in Hin.
Qed.

End CacheFacts.

Section WrapperFacts.
Context `{X : Host}.

(** The heap a handler of the error pipeline leaves is the heap its
    collaborator left. *)
Lemma tryCompileCode_heap (caller : nat) (entry : Entry) (content : string) (opts : SourceType * SourceType) (h : Heap) :
  heap_of (tryCompileCode caller entry content opts h) =
  (Compiler_compile entry content opts h).2.
Proof.
  unfold tryCompileCode.
  destruct (debug (options (package entry))); run;
    destruct (Compiler_compile entry content opts h) as [[r|e] h1]; simpl;
    try done.
  by destruct (rethrown_unchanged e).
Qed.

Lemma tryValidateESM_heap (caller : nat) (entry : Entry) (h : Heap) :
  heap_of (tryValidateESM caller entry h) = (validateESM entry h).2.
Proof.
  unfold tryValidateESM.
  destruct (debug (options (package entry))); run;
    destruct (validateESM entry h) as [[r|e] h1]; simpl; try done.
  by destruct (rethrown_unchanged e).
Qed.

Lemma builders_keep_default (entry : Entry) (h : Heap) :
  (forall content file h0,
     Module_wrap (mod_compile entry content file h0).2 = Module_wrap h0 \/
     Module_wrap (mod_compile entry content file h0).2 = wrap) ->
  Module_wrap h = wrap ->
  Module_wrap (heap_of (tryCompileCJS entry h)) = wrap /\
  Module_wrap (heap_of (tryCompileESM entry h)) = wrap.
Proof.
  intros Hhost Hw. split.
  - unfold tryCompileCJS, cached_of. run.
    destruct (cache_compile h !! cache_key entry) as [s|]; simpl; [|done].
    destruct (slot_changed s); [| destruct (useAsyncWrapper entry h)]; simpl;
      match goal with
      | |- context [mod_compile entry ?c ?f ?h0] =>
          destruct (Hhost c f h0) as [Hk | Hk];
          destruct (mod_compile entry c f h0) as [o h1]
      end; simpl in *; case_decide; simpl; congruence.
  - unfold tryCompileESM. run.
    destruct (cache_compile h !! (pid (package entry), cacheName entry))
      as [s|]; simpl; [|done].
    destruct (no_url entry h), (vars (cjs (options (package entry)))); simpl;
      match goal with
      | |- context [mod_compile entry ?c ?f ?h0] =>
          destruct (Hhost c f h0) as [Hk | Hk];
          destruct (mod_compile entry c f h0) as [o h1]
      end; simpl in *; case_decide; simpl; congruence.
Qed.

Lemma tryCompileCached_keeps_default (entry : Entry) (h : Heap) :
  (forall content file h0,
     Module_wrap (mod_compile entry content file h0).2 = Module_wrap h0 \/
     Module_wrap (mod_compile entry content file h0).2 = wrap) ->
  Module_wrap h = wrap ->
  Module_wrap (heap_of (tryCompileCached entry h)) = wrap.
Proof.
  intros Hhost Hw. unfold tryCompileCached. run.
  destruct (bool_decide (requireDepth h = 0)), (debug (options (package entry)));
    simpl;
    match goal with
    | |- context [(if ?b then tryCompileESM else tryCompileCJS) entry ?h0] =>
      assert (Module_wrap (heap_of
                ((if b then tryCompileESM else tryCompileCJS) entry h0)) = wrap)
        as Hinner
        by (destruct b; apply (builders_keep_default entry h0 Hhost); exact Hw);
      destruct ((if b then tryCompileESM else tryCompileCJS) entry h0)
        as [[[v|e] h1] l]
    end; unfold heap_of in Hinner; simpl in *; try done;
    by destruct (rethrown_unchanged e).
Qed.

(** X6.  The default wrapper is an invariant of the whole of [compile]:
    when [Module.wrap] is [wrap] before the call, the transformer, the
    validator and the fallback leave a default wrapper in place, and the
    host's [_compile] leaves [Module.wrap] as it finds it or puts [wrap]
    back, then [Module.wrap] is [wrap] after [compile], in the parse
    phase and in the execution phase, whether it returns or throws. *)
Theorem compile_keeps_default_wrapper (caller : nat) (entry : Entry) (content filename : string) (fallback : option (Foreign Value)) (h : Heap) :
  (forall c opts h0, Module_wrap h0 = wrap ->
     Module_wrap (Compiler_compile entry c opts h0).2 = wrap) ->
  (forall h0, Module_wrap h0 = wrap ->
     Module_wrap (validateESM entry h0).2 = wrap) ->
  (forall f h0, fallback = Some f -> Module_wrap h0 = wrap ->
     Module_wrap (f h0).2 = wrap) ->
  (forall c file h0,
     Module_wrap (mod_compile entry c file h0).2 = Module_wrap h0 \/
     Module_wrap (mod_compile entry c file h0).2 = wrap) ->
  Module_wrap h = wrap ->
  Module_wrap (heap_of (compile caller entry content filename fallback h)) = wrap.
Proof.
  intros Hc Hv Hf Hm Hw.
  assert (Module_wrap (heap_of (compile_cached caller entry content filename h)) = wrap)
    as H1.
  { unfold compile_cached. run.
    destruct (cache_compile h !! _) as [[|r]|]; simpl; try done.
    - destruct (Compiler_from entry h) as [r|]; simpl; [done |].
      match goal with
      | |- context [tryCompileCode ?a ?b ?c ?d ?e] =>
          pose proof (tryCompileCode_heap a b c d e) as Hh;
          pose proof (Hc c d e) as Hc';
          destruct (tryCompileCode a b c d e) as [[[r|t] h1] l]
      end; unfold heap_of in Hh; simpl in *; subst h1; by apply Hc'.
    - match goal with
      | |- context [tryCompileCode ?a ?b ?c ?d ?e] =>
          pose proof (tryCompileCode_heap a b c d e) as Hh;
          pose proof (Hc c d e) as Hc';
          destruct (tryCompileCode a b c d e) as [[[r|t] h1] l]
      end; unfold heap_of in Hh; simpl in *; subst h1; by apply Hc'. }
  unfold compile, bind.
  destruct (compile_cached caller entry content filename h) as [[[cached|e] h1] l1];
    unfold heap_of in *; simpl in *; [| done].
  destruct (parsing h1) eqn:Hp.
  - rewrite (compile_run_parsing caller entry filename fallback cached h1 Hp).
    cbv zeta.
    destruct (falls_back entry h1).
    + destruct fallback as [f|]; simpl; [by apply (Hf f) | done].
    + destruct (validates entry h1); [| done].
      pose proof (tryValidateESM_heap caller entry h1) as Hh.
      destruct (tryValidateESM caller entry h1) as [[[u|e] h2] l2];
        unfold heap_of in Hh; simpl in *; subst h2; by apply Hv.
  - rewrite (compile_run_execution caller entry filename fallback cached h1 Hp).
    pose proof (tryCompileCached_keeps_default entry
      (set_entry_state entry EXECUTION_STARTED h1) Hm H1) as Ht.
    by destruct (tryCompileCached entry _) as [[o h2] l2].
Qed.

(** X7.  Whatever the host's [_compile] does, a builder that found a
    cache slot for its entry never ends with its own override in
    [Module.wrap]: not [moduleWrapAsyncCJS] after [tryCompileCJS], not
    [moduleWrapESM] after [tryCompileESM]. *)
Theorem own_override_never_left (entry : Entry) (h : Heap) (s : Slot) :
  cached_of entry h = Some s ->
  Module_wrap (heap_of (tryCompileCJS entry h)) <> moduleWrapAsyncCJS /\
  Module_wrap (heap_of (tryCompileESM entry h)) <> moduleWrapESM.
Proof.
  unfold cached_of, cache_key. intros E. split.
  - unfold tryCompileCJS, cached_of, cache_key. run. rewrite E. simpl.
    destruct (slot_changed s); [| destruct (useAsyncWrapper entry h)]; simpl;
      destruct (mod_compile entry _ _ _) as [o h1]; simpl;
      by case_decide.
  - unfold tryCompileESM. run. rewrite E. simpl.
    destruct (no_url entry h), (vars (cjs (options (package entry)))); simpl;
      destruct (mod_compile entry _ _ _) as [o h1]; simpl;
      by case_decide.
Qed.

End WrapperFacts.

Section ExecutionFacts.
Context `{X : Host}.

(** X10.  In debug mode the three handlers make no call of
    [captureStackTrace] or [maskStackTrace]: [tryCompileCode] and
    [tryValidateESM] end exactly as the transformer and the validator
    end, and [tryCompileCached] ends with the outcome and the calls of
    the wrapper builder it runs. *)
Theorem debug_bypasses_masking (caller : nat) (entry : Entry) (h : Heap) :
  debug (options (package entry)) = true ->
  (forall content opts,
     tryCompileCode caller entry content opts h =
     ((Compiler_compile entry content opts h).1,
      (Compiler_compile entry content opts h).2,
      [CallCompilerCompile (eid entry) content opts.1 opts.2])) /\
  tryValidateESM caller entry h =
    ((validateESM entry h).1, (validateESM entry h).2,
     [CallValidateESM (eid entry)]) /\
  (let installed :=
     if bool_decide (requireDepth h = 0) then set_stat (Some ∅) h else h in
   let b := tryCompile_of entry h entry installed in
   outcome_of (tryCompileCached entry h) = outcome_of b /\
   log_of (tryCompileCached entry h) = log_of b /\
   mask_calls (log_of (tryCompileCached entry h)) = 0).
Proof.
  intros Hd. split; [| split].
  - intros content opts. unfold tryCompileCode. rewrite Hd. run.
    by destruct (Compiler_compile entry content opts h).
  - unfold tryValidateESM. rewrite Hd. run.
    by destruct (validateESM entry h).
  - intros installed b.
    assert (mask_calls (log_of b) = 0) as Hb.
    { subst b. unfold tryCompile_of.
      destruct (slot_isESM _); [apply tryCompileESM_no_mask | apply tryCompileCJS_no_mask]. }
    assert (outcome_of (tryCompileCached entry h) = outcome_of b /\
            log_of (tryCompileCached entry h) = log_of b) as [Ho Hl].
    { subst b installed. unfold tryCompile_of, cached_of, cache_key.
      unfold tryCompileCached. rewrite Hd. run.
      destruct (bool_decide (requireDepth h = 0)); simpl;
        match goal with
        | |- context [(if ?c then tryCompileESM else tryCompileCJS) entry ?h0] =>
            destruct ((if c then tryCompileESM else tryCompileCJS) entry h0)
              as [[[v|e] h1] l]
        end; simpl; by rewrite ?app_nil_r. }
    by rewrite Hl.
Qed.

(** X11.  A result passes the error pipeline untouched, in debug mode
    and outside it: what the transformer, the validator or the wrapper
    builder returns is returned, from the heap they left, with no call
    added; [tryCompileCached] only resets the statistics slot when it
    runs at depth zero. *)
Theorem results_pass_unmasked (caller : nat) (entry : Entry) (h h1 : Heap) :
  (forall content opts c,
     Compiler_compile entry content opts h = (Return c, h1) ->
     tryCompileCode caller entry content opts h =
     (Return c, h1, [CallCompilerCompile (eid entry) content opts.1 opts.2])) /\
  (forall u,
     validateESM entry h = (Return u, h1) ->
     tryValidateESM caller entry h = (Return u, h1, [CallValidateESM (eid entry)])) /\
  (forall v l,
     let installed :=
       if bool_decide (requireDepth h = 0) then set_stat (Some ∅) h else h in
     tryCompile_of entry h entry installed = (Return v, h1, l) ->
     tryCompileCached entry h =
     (Return v, (if bool_decide (requireDepth h = 0) then set_stat None h1 else h1), l)).
Proof.
  split; [| split].
  - intros content opts c Hc. unfold tryCompileCode.
    destruct (debug (options (package entry))); run; by rewrite Hc.
  - intros u Hv. unfold tryValidateESM.
    destruct (debug (options (package entry))); run; by rewrite Hv.
  - intros v l installed. subst installed.
    unfold tryCompile_of, cached_of, cache_key. intros Hb.
    unfold tryCompileCached. run.
    destruct (bool_decide (requireDepth h = 0)),
      (debug (options (package entry))); simpl; rewrite Hb; simpl;
      by rewrite ?app_nil_r.
Qed.

(** X12.  An entry without a slot in the compile cache is never
    executed: [tryCompileCached] throws the TypeError of reading
    [cached.code] off [undefined] (masked outside debug mode when the
    guard lets it through), without calling [Runtime.enable] or
    [mod._compile] and without changing [Module.wrap], the caches or the
    runtime bindings. *)
Theorem missing_entry_is_not_executed (entry : Entry) (h : Heap) :
  cached_of entry h = None ->
  let r := tryCompileCached entry h in
  let e := typeError "code" in
  let file := filename entry in
  outcome_of r =
    Throw (if debug (options (package entry)) || rethrown_unchanged e
           then e else maskStackTrace e (ContentThunk file) file false) /\
  (forall c, c ∈ log_of r -> is_exec c = false) /\
  Module_wrap (heap_of r) = Module_wrap h /\
  cache_compile (heap_of r) = cache_compile h /\
  cache_map (heap_of r) = cache_map h /\
  entry_runtime (heap_of r) = entry_runtime h.
Proof.
  intros E r e file. subst r e file. unfold cached_of, cache_key in E.
  unfold tryCompileCached, tryCompileCJS, cached_of, cache_key. run. rewrite E.
  simpl.
  destruct (bool_decide (requireDepth h = 0)),
    (debug (options (package entry))); simpl; rewrite ?E; simpl;
    try destruct (rethrown_unchanged (typeError "code")); simpl;
    (split; [done |]); (split; [| done]);
    intros c Hin; log_cases Hin.
Qed.

(** X13.  [tryCompileESM] makes two calls, [Runtime.enable] and then
    [mod._compile].  In the heap the host starts from, the entry has a
    new runtime binding, its url is the one it had, or the url of its
    file when it had none, [Module.wrap] is overridden exactly when
    [cjs.vars] is off, and the caches, the statistics slot and the
    entries' states are as before; when the host is done, only an
    override left in [Module.wrap] is replaced by [wrap]. *)
Theorem tryCompileESM_frame (entry : Entry) (h : Heap) (s : Slot) :
  cached_of entry h = Some s ->
  exists content h0,
    tryCompileESM entry h =
      (let r := mod_compile entry content (filename entry) h0 in
       (r.1,
        (if decide (Module_wrap r.2 = moduleWrapESM)
         then set_Module_wrap wrap r.2 else r.2),
        [CallRuntimeEnable (eid entry);
         CallModCompile (eid entry) content (filename entry)])) /\
    entry_runtime h0 = <[eid entry := next_object h]> (entry_runtime h) /\
    next_object h0 = S (next_object h) /\
    entry_url h0 =
      (match entry_url h !! eid entry with
       | Some u => if bool_decide (u = "") then
                     <[eid entry := getURLFromFilePath (filename entry)]> (entry_url h)
                   else entry_url h
       | None => <[eid entry := getURLFromFilePath (filename entry)]> (entry_url h)
       end) /\
    Module_wrap h0 =
      (if vars (cjs (options (package entry))) then Module_wrap h else moduleWrapESM) /\
    cache_compile h0 = cache_compile h /\ cache_map h0 = cache_map h /\
    stat h0 = stat h /\ entry_state h0 = entry_state h.
Proof.
  unfold cached_of, cache_key. intros E.
  unfold tryCompileESM, no_url. run. rewrite E. simpl.
  destruct (entry_url h !! eid entry) as [u|]; [case_bool_decide |];
    destruct (vars (cjs (options (package entry)))); simpl;
    match goal with
    | |- context [mod_compile entry ?c ?f ?h0] => exists c, h0
    end;
    (split; [by destruct (mod_compile entry _ _ _) |]); done.
Qed.

(** X14.  When the cached compilation is marked changed,
    [tryCompileCJS] also calls [Runtime.enable] and then [mod._compile];
    the host starts from a heap in which the entry has a new runtime
    binding and no other field differs, [Module.wrap], the require depth
    and the parsing flag included: the asynchronous override is not
    installed for code that has its own wrapper. *)
Theorem tryCompileCJS_changed_frame (entry : Entry) (h : Heap) (s : Slot) :
  cached_of entry h = Some s ->
  slot_changed s = true ->
  exists content h0,
    tryCompileCJS entry h =
      (let r := mod_compile entry content (filename entry) h0 in
       (r.1,
        (if decide (Module_wrap r.2 = moduleWrapAsyncCJS)
         then set_Module_wrap wrap r.2 else r.2),
        [CallRuntimeEnable (eid entry);
         CallModCompile (eid entry) content (filename entry)])) /\
    entry_runtime h0 = <[eid entry := next_object h]> (entry_runtime h) /\
    next_object h0 = S (next_object h) /\
    Module_wrap h0 = Module_wrap h /\
    entry_url h0 = entry_url h /\
    cache_compile h0 = cache_compile h /\ cache_map h0 = cache_map h /\
    stat h0 = stat h /\ entry_state h0 = entry_state h /\
    requireDepth h0 = requireDepth h /\ parsing h0 = parsing h.
Proof.
  intros E Hc. unfold tryCompileCJS. run. rewrite E. simpl. rewrite Hc. simpl.
  match goal with
  | |- context [mod_compile entry ?c ?f ?h0] => exists c, h0
  end.
  split; [by destruct (mod_compile entry _ _ _) |]. done.
Qed.

Lemma starts_with_async (tlr asy : bool) (r : string) :
  starts_with ((if tlr then "return " else "") +:+ "this.r((async ")
    ((if tlr then "return " else "") +:+ "this.r((" +:+
     (if asy then "async " else "") +:+ "function(" +:+ r) = asy.
Proof. by destruct tlr, asy. Qed.

(** X15.  The function literal of a generated wrapper carries the
    [async] marker exactly when [useAsyncWrapper] answers true, in the
    wrapper of [tryCompileESM] and in the wrapper [tryCompileCJS] builds
    for a changed cached compilation. *)
Theorem async_marker (entry : Entry) (h : Heap) (s : Slot) :
  cached_of entry h = Some s ->
  let head := (if slot_topLevelReturn s then "return " else "") +:+ "this.r((async " in
  (exists content,
     handed (log_of (tryCompileESM entry h)) = [content] /\
     starts_with head content = useAsyncWrapper entry h) /\
  (slot_changed s = true ->
   exists content,
     handed (log_of (tryCompileCJS entry h)) = [content] /\
     starts_with head content = useAsyncWrapper entry h).
Proof.
  intros E head. split.
  - eexists. split; [exact (tryCompileESM_handed entry h _ E) |].
    cbv zeta. unfold wrapESM. rewrite !append_assoc. apply starts_with_async.
  - intros Hc. eexists.
    split; [exact (tryCompileCJS_handed_changed entry h _ E Hc) |].
    cbv zeta. unfold wrapCJS. rewrite !append_assoc. apply starts_with_async.
Qed.

End ExecutionFacts.

(** ** Further facts about the function mask *)

Section MemoFacts.

(** The record a successful installation stores. *)
Lemma maskFunction_install_record (func source proxy toString : nat) (R R' : Realm) (v : JsVal) :
  maskFunction_install func source proxy toString R = (Return v, R') ->
  v = VRef proxy /\
  utilMaskFunction R' =
    <[proxy := mkMaskRecord proxy
                 (match utilMaskFunction R !! source with
                  | Some found => rec_source found
                  | None => source
                  end) toString]>
      (<[func := mkMaskRecord proxy
                   (match utilMaskFunction R !! source with
                    | Some found => rec_source found
                    | None => source
                    end) toString]> (utilMaskFunction R)).
Proof.
  intros H.
  destruct (maskFunction_install_cases func source proxy toString R)
    as [(e & R0 & He & _) | (r & R1 & Hr & Hp & Hs & Ht & [Hm _])];
    rewrite H in *; [done |].
  injection Hr as -> ->. split; [done |]. simpl. rewrite Hm.
  destruct r as [rp rs rt]. simpl in *. by subst.
Qed.

(** X16.  A call of [maskFunction] that throws leaves the memo table as
    it was and loses no object; it throws only the TypeError of a proxy
    on a target that is not an object, of [Reflect.setPrototypeOf] on a
    [prototype] that is not an object, or of the assignment to a
    [prototype] that is read-only. *)
Theorem mask_failure_keeps_memo (func source : JsVal) (R R' : Realm) (e : Thrown) :
  maskFunction func source R = (Throw e, R') ->
  utilMaskFunction R' = utilMaskFunction R /\
  (forall k, is_Some (objects R !! k) -> is_Some (objects R' !! k)) /\
  (e = proxyTypeError \/ e = reflectTypeError \/ e = assignTypeError).
Proof.
  intros Hcall.
  destruct (maskFunction_cases func source R)
    as [[_ H] | [(_ & f & r & _ & _ & H) | [(_ & e' & R0 & H & He & Hm & Ho)
        | (_ & f & r & R1 & _ & _ & _ & H & _)]]]; rewrite H in Hcall;
    try done.
  injection Hcall as <- <-. done.
Qed.

(** X17.  The proxy of a first mask is a new object: it is no object of
    the realm before the call, it is one after, and so it differs from
    every function that existed, [func] included. *)
Theorem mask_proxy_is_new (f : nat) (source : JsVal) (R R' : Realm) (p : nat) :
  utilMaskFunction R !! f = None ->
  maskFunction (VRef f) source R = (Return (VRef p), R') ->
  is_function R source = true ->
  objects R !! p = None /\
  is_Some (objects R' !! p) /\
  (forall k, is_Some (objects R !! k) -> k <> p /\ is_Some (objects R' !! k)).
Proof.
  intros Hf Hcall Hs.
  destruct (maskFunction_cases (VRef f) source R)
    as [[H _] | [(_ & f' & r & [= <-] & Hf' & _) | [(_ & e' & R0 & H & _)
        | (_ & f' & r & R1 & [= <-] & _ & Hr & H & [Hm Ho] & Lf & Lp)]]];
    try congruence.
  rewrite H in Hcall. injection Hcall as <- <-. simpl.
  rewrite Hr. split; [apply fresh_not_live |]. split; [by rewrite <- Hr |].
  intros k Hk. split; [| by apply Ho].
  intros ->. rewrite fresh_not_live in Hk. by destruct Hk.
Qed.

(** X18.  Masks do not chain: when the source of a first mask has a
    record itself, as a masked function or as a proxy, the record stored
    for [func] names the source of that record; otherwise it names the
    source given. *)
Theorem mask_source_resolved (f s : nat) (R R' : Realm) (result : JsVal) :
  utilMaskFunction R !! f = None ->
  maskFunction (VRef f) (VRef s) R = (Return result, R') ->
  is_function R (VRef s) = true ->
  exists r,
    utilMaskFunction R' !! f = Some r /\
    result = VRef (rec_proxy r) /\
    rec_source r =
      match utilMaskFunction R !! s with
      | Some found => rec_source found
      | None => s
      end.
Proof.
  intros Hf Hcall Hs. revert Hcall. unfold maskFunction.
  unfold is_function in Hs. simpl in *.
  destruct (callable (obj R s)); [| done]. rewrite Hf.
  destruct (get _ f "toString") as [| | n | t]; try done.
  intros Hi. apply maskFunction_install_record in Hi as [-> Hm].
  simpl in Hm. rewrite Hm. eexists. split.
  - rewrite lookup_insert. case_decide as Hpf; [reflexivity | apply lookup_insert_eq].
  - by split.
Qed.

(** X19.  Masking a mask gives the mask: after a call that returned a
    proxy, and after any further steps of the program, [maskFunction]
    applied to that proxy with a callable source returns the proxy
    itself and changes nothing. *)
Theorem mask_of_mask (func source : JsVal) (R R' : Realm) (result : JsVal) :
  memo_wf R ->
  is_function R source = true ->
  maskFunction func source R = (Return result, R') ->
  forall R'' source',
    later R' R'' ->
    is_function R'' source' = true ->
    maskFunction result source' R'' = (Return result, R'').
Proof.
  intros Hwf Hs Hcall R'' source' Hlater Hs'.
  assert (memo_wf R') as Hwf'.
  { change R' with (Return (A:=JsVal) result, R').2. rewrite <- Hcall.
    by apply maskFunction_wf. }
  assert (exists r, result = VRef (rec_proxy r) /\
            utilMaskFunction R' !! rec_proxy r = Some r) as (r & -> & Hp).
  { destruct (maskFunction_cases func source R)
      as [[H _] | [(_ & f & r & -> & Hf & H) | [(_ & e & R0 & H & _)
          | (_ & f & r & R1 & -> & Hf & Hr & H & _)]]];
      [congruence | rewrite H in Hcall | congruence | rewrite H in Hcall];
      injection Hcall as <- <-; exists r; (split; [done |]).
    - by apply (proj1 Hwf f).
    - simpl. apply lookup_insert_eq. }
  destruct (later_keeps (rec_proxy r) r R' R'' Hlater Hwf' Hp) as [_ Hk].
  by apply (maskFunction_hit (rec_proxy r) r).
Qed.

Lemma maskFunction_proxies_own (func source : JsVal) (R : Realm) :
  memo_wf R -> proxies_own R -> proxies_own (maskFunction func source R).2.
Proof.
  intros [Hpair Hlive] Hown.
  destruct (maskFunction_cases func source R)
    as [[_ ->] | [(_ & f & r & _ & _ & ->) | [(_ & e & R' & -> & _ & Hm & Ho)
        | (_ & f & r & R1 & _ & Hf & Hr & -> & [Hm Ho] & Lf & Lp)]]];
    unfold proxies_own; simpl; try done.
  - by rewrite Hm.
  - rewrite Hm.
    assert (forall k rk, utilMaskFunction R !! k = Some rk ->
              rec_proxy rk <> rec_proxy r) as Hold.
    { intros k rk Hk Heq. apply Hpair in Hk.
      assert (is_Some (objects R !! rec_proxy rk)) as Hl by (apply Hlive; eauto).
      rewrite Heq, Hr, fresh_not_live in Hl. by destruct Hl. }
    intros k1 k2 r1 r2. rewrite !lookup_insert.
    destruct (decide (rec_proxy r = k1)) as [<- | Hk1p].
    { intros [= <-] _ _. right. by left. }
    destruct (decide (rec_proxy r = k2)) as [<- | Hk2p].
    { intros _ [= <-] Heq. right. right. done. }
    destruct (decide (f = k1)) as [<- | Hk1f]; destruct (decide (f = k2)) as [<- | Hk2f].
    + intros _ _ _. by left.
    + intros [= <-] H2 Heq. by destruct (Hold _ _ H2).
    + intros H1 [= <-] Heq. by destruct (Hold _ _ H1).
    + apply Hown.
Qed.

(** X20.  No two functions share a mask.  In every realm reached from
    an empty memo table, two keys whose records have the same proxy
    hold the same record, and they are the same key unless one of them
    is that proxy. *)
Theorem masks_are_not_shared (R0 R : Realm) (k1 k2 : nat) (r1 r2 : MaskRecord) :
  utilMaskFunction R0 = ∅ ->
  later R0 R ->
  utilMaskFunction R !! k1 = Some r1 ->
  utilMaskFunction R !! k2 = Some r2 ->
  rec_proxy r1 = rec_proxy r2 ->
  r1 = r2 /\ (k1 = k2 \/ k1 = rec_proxy r1 \/ k2 = rec_proxy r1).
Proof.
  intros Hempty Hlater.
  assert (memo_wf R /\ proxies_own R) as [Hwf Hown].
  { assert (memo_wf R0 /\ proxies_own R0) as H0.
    { split; [split |]; unfold proxies_own; intros *; rewrite Hempty;
        try (by rewrite lookup_empty); by intros [? H]; rewrite lookup_empty in H. }
    clear Hempty.
    induction Hlater as [R | Ra Rb Rc Hstep _ IH]; [done |].
    apply IH. destruct H0 as [Hwf Hown]. split.
    - by apply (step_wf Ra Rb).
    - destruct Hstep as [(func & source & <-) | [Hm _]].
      + by apply maskFunction_proxies_own.
      + unfold proxies_own. by rewrite Hm. }
  intros H1 H2 Heq. split; [| by apply (Hown k1 k2 r1 r2)].
  pose proof (proj1 Hwf k1 r1 H1) as P1.
  pose proof (proj1 Hwf k2 r2 H2) as P2.
  rewrite Heq in P1. congruence.
Qed.

(** X21.  A record of the memo table is never replaced or removed, and
    no object of the realm is lost, whatever steps of the program
    follow. *)
Theorem memo_records_persist (R R' : Realm) :
  memo_wf R ->
  later R R' ->
  (forall k r, utilMaskFunction R !! k = Some r -> utilMaskFunction R' !! k = Some r) /\
  (forall k, is_Some (objects R !! k) -> is_Some (objects R' !! k)).
Proof.
  intros Hwf Hlater. split.
  - intros k r Hk. by apply (later_keeps k r R R').
  - induction Hlater as [R | Ra Rb Rc Hstep _ IH]; [done |].
    intros k Hk. apply IH; [by apply (step_wf Ra Rb) |].
    destruct Hstep as [(func & source & <-) | [_ Ho]]; [| by apply Ho].
    destruct (maskFunction_cases func source Ra)
      as [[_ ->] | [(_ & f & r & _ & _ & ->) | [(_ & e & R' & -> & _ & Hm & Ho)
          | (_ & f & r & R1 & _ & Hf & Hr & -> & [Hm Ho] & Lf & Lp)]]];
      simpl; try done; by apply Ho.
Qed.













End MemoFacts.

(** ** The further facts on the sample host and the sample realm *)

(** A fresh compile of [/app/new.js], and a second one with other
    content, answered from the cache. *)
Lemma compile_cached_idempotent_witness :
  outcome_of (@compile_cached sample_host 1 (sample_entry await_options "new.js")
    "y=2" "/app/new.js"
    (heap_of (@compile_cached sample_host 0 (sample_entry await_options "new.js")
       "x=1" "/app/new.js" (sample_heap wrap 0 ∅))))
  = Return (mkCached (TString "x=1") SCRIPT true false None []) /\
  log_of (@compile_cached sample_host 1 (sample_entry await_options "new.js")
    "y=2" "/app/new.js"
    (heap_of (@compile_cached sample_host 0 (sample_entry await_options "new.js")
       "x=1" "/app/new.js" (sample_heap wrap 0 ∅)))) = [].
Proof.
  assert (outcome_of (@compile_cached sample_host 0
            (sample_entry await_options "new.js") "x=1" "/app/new.js"
            (sample_heap wrap 0 ∅)) =
          Return (mkCached (TString "x=1") SCRIPT true false None [])) as Ho
    by (vm_compute; reflexivity).
  pose proof (@compile_cached_idempotent sample_host 0 1
    (sample_entry await_options "new.js") (sample_entry await_options "new.js")
    "x=1" "y=2" "/app/new.js" "/app/new.js" (sample_heap wrap 0 ∅)
    (mkCached (TString "x=1") SCRIPT true false None []) Ho eq_refl) as H.
  cbv zeta in H. rewrite H. by split.
Defined.

(** A transformation that fails stores nothing. *)
Lemma compile_cached_failure_witness :
  exists h0 l,
    cache_compile h0 !! (1, "bad.js") = None /\
    @tryCompileCode sample_host 0 (sample_entry await_options "bad.js")
      "syntax error" (SCRIPT, SCRIPT) h0 =
      (Throw (mkThrown "SyntaxError" "masked:SyntaxError: unexpected" None),
       sample_heap wrap 0 ∅, l).
Proof.
  assert (outcome_of (@compile_cached sample_host 0
            (sample_entry await_options "bad.js") "syntax error" "/app/bad.js"
            (sample_heap wrap 0 ∅)) =
          Throw (mkThrown "SyntaxError" "masked:SyntaxError: unexpected" None)) as Ho
    by (vm_compute; reflexivity).
  destruct (@compile_cached_failure sample_host 0
    (sample_entry await_options "bad.js") "syntax error" "/app/bad.js"
    (sample_heap wrap 0 ∅)
    (mkThrown "SyntaxError" "masked:SyntaxError: unexpected" None) Ho)
    as (h0 & l & Hk & Ht & _).
  exists h0, l. split; [exact Hk |].
  etrans; [exact Ht |]. vm_compute. reflexivity.
Defined.

(** The warnings of a record, in the parse phase of a package that
    enables them. *)
Example compile_warnings_sample :
  warn_calls (log_of (@compile sample_host 0 (sample_entry warning_options "w.js")
    "x=1" "/app/w.js" None
    (parsing_heap (cache_with "w.js" (Compiled script_with_warnings))))) =
  [CallWarn "WRN_ARGUMENTS_ACCESS" "/app/w.js" ["1"; "2"];
   CallWarn "WRN_TDZ_ACCESS" "/app/w.js" ["x"]].
Proof. vm_compute. reflexivity. Qed.

(** An import/export module in the parse phase: validated, not run. *)
Lemma compile_parse_phase_witness :
  (forall c,
     c ∈ log_of (@compile sample_host 0 (sample_entry await_options "m.mjs")
       "export {}" "/app/m.mjs" None
       (parsing_heap (cache_with "m.mjs" (Compiled (module_record None))))) ->
     is_exec c = false) /\
  CallFallback ∉ log_of (@compile sample_host 0 (sample_entry await_options "m.mjs")
       "export {}" "/app/m.mjs" None
       (parsing_heap (cache_with "m.mjs" (Compiled (module_record None))))).
Proof.
  destruct (@compile_parse_phase sample_host 0 (sample_entry await_options "m.mjs")
    "export {}" "/app/m.mjs" None
    (parsing_heap (cache_with "m.mjs" (Compiled (module_record None))))
    (module_record None) eq_refl eq_refl) as (Hexec & _ & Hval).
  split; [exact Hexec |].
  assert (CallValidateESM 7 ∈
    log_of (@compile sample_host 0 (sample_entry await_options "m.mjs")
       "export {}" "/app/m.mjs" None
       (parsing_heap (cache_with "m.mjs" (Compiled (module_record None))))))
    as Hin by (vm_compute; apply list_elem_of_here).
  by destruct (Hval 7 Hin) as (_ & _ & _ & Hf).
Defined.

(** A script in the execution phase. *)
Lemma compile_execution_phase_witness :
  state_of (sample_entry await_options "a.js")
    (set_entry_state (sample_entry await_options "a.js") EXECUTION_STARTED
       (heap_of (@compile_cached sample_host 0 (sample_entry await_options "a.js")
          "x=1" "/app/a.js"
          (sample_heap wrap 0 (cache_with "a.js" (Compiled script_unchanged))))))
  = EXECUTION_STARTED /\
  CallFallback ∉ log_of (@compile sample_host 0 (sample_entry await_options "a.js")
     "x=1" "/app/a.js" None
     (sample_heap wrap 0 (cache_with "a.js" (Compiled script_unchanged)))).
Proof.
  destruct (@compile_execution_phase sample_host 0 (sample_entry await_options "a.js")
    "x=1" "/app/a.js" None
    (sample_heap wrap 0 (cache_with "a.js" (Compiled script_unchanged)))
    script_unchanged eq_refl eq_refl) as (_ & Hs & Hf & _).
  split; [exact Hs | exact Hf].
Defined.

(** The sample collaborators keep the default wrapper. *)
Lemma compile_keeps_default_wrapper_witness :
  Module_wrap (heap_of (@compile sample_host 0 (sample_entry await_options "a.js")
     "x=1" "/app/a.js" None
     (sample_heap wrap 0 (cache_with "a.js" (Compiled script_unchanged))))) = wrap.
Proof.
  apply (@compile_keeps_default_wrapper sample_host).
  - intros c opts h0 Hw. simpl. unfold sample_transform.
    repeat (destruct (bool_decide _)); done.
  - intros h0 Hw. exact Hw.
  - intros f h0 [=].
  - intros c file h0. apply sample_mod_compile_wrap.
  - reflexivity.
Defined.

(** With a foreign function in [Module.wrap] the override is still not
    left behind. *)
Lemma own_override_never_left_witness :
  Module_wrap (heap_of (@tryCompileCJS sample_host (sample_entry await_options "a.js")
     (sample_heap (foreignWrap 7) 0 (cache_with "a.js" (Compiled script_unchanged)))))
  <> moduleWrapAsyncCJS /\
  Module_wrap (heap_of (@tryCompileESM sample_host (sample_entry await_options "a.js")
     (sample_heap (foreignWrap 7) 0 (cache_with "a.js" (Compiled script_unchanged)))))
  <> moduleWrapESM.
Proof.
  exact (@own_override_never_left sample_host (sample_entry await_options "a.js")
    (sample_heap (foreignWrap 7) 0 (cache_with "a.js" (Compiled script_unchanged)))
    (Compiled script_unchanged) eq_refl).
Defined.

(** A module that throws at depth zero, outside debug mode. *)
Lemma stat_reset_outside_debug_witness :
  stat (heap_of (@tryCompileCached sample_host (sample_entry await_options "throws.js")
    (sample_heap wrap 0 (cache_with "throws.js" (Compiled script_changed))))) = None.
Proof.
  exact (@stat_reset_outside_debug sample_host (sample_entry await_options "throws.js")
    (sample_heap wrap 0 (cache_with "throws.js" (Compiled script_changed)))
    eq_refl eq_refl).
Defined.

(** A call at depth two. *)
Lemma stat_untouched_at_depth_witness :
  heap_of (@tryCompileCached sample_host (sample_entry await_options "a.js")
    (sample_heap wrap 2 (cache_with "a.js" (Compiled script_changed)))) =
  heap_of (@tryCompileCJS sample_host (sample_entry await_options "a.js")
    (sample_heap wrap 2 (cache_with "a.js" (Compiled script_changed)))).
Proof.
  exact (@stat_untouched_at_depth sample_host (sample_entry await_options "a.js")
    (sample_heap wrap 2 (cache_with "a.js" (Compiled script_changed)))
    ltac:(discriminate)).
Defined.

(** Debug mode: the error of the transformer is thrown as it is. *)
Lemma debug_bypasses_masking_witness :
  @tryCompileCode sample_host 0 (sample_entry debug_options "a.js")
    "syntax error" (SCRIPT, SCRIPT) (sample_heap wrap 0 ∅) =
  (Throw (mkThrown "SyntaxError" "SyntaxError: unexpected" (Some SCRIPT)),
   sample_heap wrap 0 ∅,
   [CallCompilerCompile 7 "syntax error" SCRIPT SCRIPT]).
Proof.
  exact (proj1 (@debug_bypasses_masking sample_host 0
    (sample_entry debug_options "a.js") (sample_heap wrap 0 ∅) eq_refl)
    "syntax error" (SCRIPT, SCRIPT)).
Defined.

(** A transformation that succeeds, outside debug mode. *)
Lemma results_pass_unmasked_witness :
  @tryCompileCode sample_host 0 (sample_entry await_options "a.js")
    "x=1" (SCRIPT, SCRIPT) (sample_heap wrap 0 ∅) =
  (Return (mkCached (TString "x=1") SCRIPT true false None []),
   sample_heap wrap 0 ∅,
   [CallCompilerCompile 7 "x=1" SCRIPT SCRIPT]) /\
  @tryValidateESM sample_host 0 (sample_entry await_options "m.mjs")
    (sample_heap wrap 0 ∅) =
  (Return tt, sample_heap wrap 0 ∅, [CallValidateESM 7]).
Proof.
  destruct (@results_pass_unmasked sample_host 0
    (sample_entry await_options "a.js") (sample_heap wrap 0 ∅) (sample_heap wrap 0 ∅))
    as (Hc & _).
  destruct (@results_pass_unmasked sample_host 0
    (sample_entry await_options "m.mjs") (sample_heap wrap 0 ∅) (sample_heap wrap 0 ∅))
    as (_ & Hv & _).
  split.
  - exact (Hc "x=1" (SCRIPT, SCRIPT) _ eq_refl).
  - exact (Hv tt eq_refl).
Defined.

(** An entry that was never compiled. *)
Lemma missing_entry_is_not_executed_witness :
  outcome_of (@tryCompileCached sample_host (sample_entry await_options "none.js")
    (sample_heap wrap 0 ∅)) =
  Throw (mkThrown "TypeError" "masked:Cannot read property 'code' of undefined" None) /\
  Module_wrap (heap_of (@tryCompileCached sample_host
    (sample_entry await_options "none.js") (sample_heap wrap 0 ∅))) = wrap.
Proof.
  assert (@cached_of (sample_entry await_options "none.js") (sample_heap wrap 0 ∅) = None)
    as Hnone by (vm_compute; reflexivity).
  destruct (@missing_entry_is_not_executed sample_host
    (sample_entry await_options "none.js") (sample_heap wrap 0 ∅) Hnone)
    as (Ho & _ & Hw & _).
  split; [exact Ho | exact Hw].
Defined.

(** The heap the host starts from, for an import/export module and for
    a changed script. *)
Lemma tryCompileESM_frame_witness :
  exists content h0,
    outcome_of (@tryCompileESM sample_host (sample_entry await_options "m.mjs")
      (sample_heap wrap 0 (cache_with "m.mjs" (Compiled (module_record None))))) =
    (sample_mod_compile (sample_entry await_options "m.mjs") content "/app/m.mjs" h0).1 /\
    entry_runtime h0 = {[ 7 := 100 ]} /\
    entry_url h0 = {[ 7 := "file:///app/m.mjs" ]} /\
    Module_wrap h0 = moduleWrapESM.
Proof.
  destruct (@tryCompileESM_frame sample_host (sample_entry await_options "m.mjs")
    (sample_heap wrap 0 (cache_with "m.mjs" (Compiled (module_record None))))
    (Compiled (module_record None)) eq_refl)
    as (content & h0 & Hrun & Hr & _ & Hu & Hw & _).
  exists content, h0. rewrite Hrun. split; [reflexivity |].
  split; [exact Hr |]. split; [exact Hu | exact Hw].
Defined.

Lemma tryCompileCJS_changed_frame_witness :
  exists content h0,
    outcome_of (@tryCompileCJS sample_host (sample_entry await_options "a.js")
      (sample_heap wrap 0 (cache_with "a.js" (Compiled script_changed)))) =
    (sample_mod_compile (sample_entry await_options "a.js") content "/app/a.js" h0).1 /\
    entry_runtime h0 = {[ 7 := 100 ]} /\
    Module_wrap h0 = wrap.
Proof.
  destruct (@tryCompileCJS_changed_frame sample_host (sample_entry await_options "a.js")
    (sample_heap wrap 0 (cache_with "a.js" (Compiled script_changed)))
    (Compiled script_changed) eq_refl eq_refl)
    as (content & h0 & Hrun & Hr & _ & Hw & _).
  exists content, h0. rewrite Hrun. split; [reflexivity |].
  split; [exact Hr | exact Hw].
Defined.

(** A module with one named export is not wrapped asynchronously; a
    changed script of the same package is. *)
Lemma async_marker_witness :
  (exists content,
     handed (log_of (@tryCompileESM sample_host (sample_entry await_options "m.mjs")
       (sample_heap wrap 0
          (cache_with "m.mjs" (Compiled (module_record (Some {[ "x" := 1 ]}))))))) = [content] /\
     starts_with "this.r((async " content = false) /\
  (exists content,
     handed (log_of (@tryCompileCJS sample_host (sample_entry await_options "a.js")
       (sample_heap wrap 0 (cache_with "a.js" (Compiled script_changed))))) = [content] /\
     starts_with "return this.r((async " content = true).
Proof.
  destruct (@async_marker sample_host (sample_entry await_options "m.mjs")
    (sample_heap wrap 0
       (cache_with "m.mjs" (Compiled (module_record (Some {[ "x" := 1 ]})))))
    (Compiled (module_record (Some {[ "x" := 1 ]}))) eq_refl) as [Hesm _].
  destruct (@async_marker sample_host (sample_entry await_options "a.js")
    (sample_heap wrap 0 (cache_with "a.js" (Compiled script_changed)))
    (Compiled script_changed) eq_refl) as [_ Hcjs].
  split; [exact Hesm | exact (Hcjs eq_refl)].
Defined.

(** A class masked with an arrow function: the assignment to the
    read-only [prototype] throws, and the table is as before. *)
Lemma mask_failure_keeps_memo_witness :
  (maskFunction (VRef 30) (VRef 50) class_realm).1 = Throw assignTypeError /\
  utilMaskFunction (maskFunction (VRef 30) (VRef 50) class_realm).2 =
  utilMaskFunction class_realm.
Proof.
  assert (maskFunction (VRef 30) (VRef 50) class_realm =
          (Throw assignTypeError, (maskFunction (VRef 30) (VRef 50) class_realm).2))
    as Hcall by (vm_compute; reflexivity).
  split; [by rewrite Hcall |].
  exact (proj1 (mask_failure_keeps_memo (VRef 30) (VRef 50) class_realm _
                  assignTypeError Hcall)).
Defined.

Lemma mask_proxy_is_new_witness :
  objects sample_realm !! 22 = None /\
  is_Some (objects (maskFunction (VRef 10) (VRef 20) sample_realm).2 !! 22).
Proof.
  assert (maskFunction (VRef 10) (VRef 20) sample_realm =
          (Return (VRef 22), (maskFunction (VRef 10) (VRef 20) sample_realm).2)) as Hcall
    by (vm_compute; reflexivity).
  destruct (mask_proxy_is_new 10 (VRef 20) sample_realm _ 22 eq_refl Hcall eq_refl)
    as (Hn & Hl & _).
  split; [exact Hn | exact Hl].
Defined.

(** Masking a second function with the first mask as source records the
    source of the first. *)
Lemma mask_source_resolved_witness :
  exists r,
    utilMaskFunction
      (maskFunction (VRef 2) (VRef 22)
         (maskFunction (VRef 10) (VRef 20) sample_realm).2).2 !! 2 = Some r /\
    rec_source r = 20.
Proof.
  assert (exists result,
    maskFunction (VRef 2) (VRef 22) (maskFunction (VRef 10) (VRef 20) sample_realm).2 =
    (Return result,
     (maskFunction (VRef 2) (VRef 22)
        (maskFunction (VRef 10) (VRef 20) sample_realm).2).2)) as [result Hcall]
    by (eexists; vm_compute; reflexivity).
  assert (utilMaskFunction (maskFunction (VRef 10) (VRef 20) sample_realm).2 !! 2 = None)
    as Hnone by (vm_compute; reflexivity).
  assert (is_function (maskFunction (VRef 10) (VRef 20) sample_realm).2 (VRef 22) = true)
    as Hfun by (vm_compute; reflexivity).
  destruct (mask_source_resolved 2 22 _ _ result Hnone Hcall Hfun)
    as (r & Hr & _ & Hs).
  exists r. split; [exact Hr |]. rewrite Hs. vm_compute. reflexivity.
Defined.

Lemma mask_of_mask_witness :
  maskFunction (VRef 22) (VRef 2) (maskFunction (VRef 10) (VRef 20) sample_realm).2 =
  (Return (VRef 22), (maskFunction (VRef 10) (VRef 20) sample_realm).2).
Proof.
  assert (maskFunction (VRef 10) (VRef 20) sample_realm =
          (Return (VRef 22), (maskFunction (VRef 10) (VRef 20) sample_realm).2)) as Hcall
    by (vm_compute; reflexivity).
  apply (mask_of_mask (VRef 10) (VRef 20) sample_realm _ (VRef 22)
    sample_realm_wf eq_refl Hcall); [apply rtc_refl | vm_compute; reflexivity].
Defined.

(** The two keys of the one record of the table. *)
Lemma masks_are_not_shared_witness :
  10 = 22 \/ 10 = 22 \/ 22 = 22.
Proof.
  assert (later sample_realm (maskFunction (VRef 10) (VRef 20) sample_realm).2) as Hl.
  { apply rtc_once. left. by exists (VRef 10), (VRef 20). }
  exact (proj2 (masks_are_not_shared sample_realm _ 10 22
    (mkMaskRecord 22 20 23) (mkMaskRecord 22 20 23) eq_refl Hl
    ltac:(vm_compute; reflexivity) ltac:(vm_compute; reflexivity) eq_refl)).
Defined.

Lemma memo_records_persist_witness :
  utilMaskFunction
    (maskFunction (VRef 2) (VRef 22)
       (maskFunction (VRef 10) (VRef 20) sample_realm).2).2 !! 10 =
  Some (mkMaskRecord 22 20 23).
Proof.
  assert (memo_wf (maskFunction (VRef 10) (VRef 20) sample_realm).2) as Hwf
    by apply maskFunction_wf, sample_realm_wf.
  assert (later (maskFunction (VRef 10) (VRef 20) sample_realm).2
            (maskFunction (VRef 2) (VRef 22)
               (maskFunction (VRef 10) (VRef 20) sample_realm).2).2) as Hl.
  { apply rtc_once. left. by exists (VRef 2), (VRef 22). }
  apply (proj1 (memo_records_persist _ _ Hwf Hl)). vm_compute. reflexivity.
Defined.

